(** * The display controller of esp_agents_firmware

    A shallow embedding of
    [examples/common/app_common/src/app_display.c]: the process-wide
    display state, the public operations ([app_display_init],
    [app_display_set_text], [app_display_set_emotion],
    [app_display_is_emotion_valid], [app_display_system_state_changed],
    [app_display_send_event]) and the registered event handler
    ([display_event_handler]).

    Calls that leave the file (board layer, panel driver, emote engine,
    event loop) are recorded, in order, in a trace; what they return is
    read from an environment record, so every theorem holds for every
    behaviour of those collaborators.  [ESP_LOGx] lines are not modelled. *)

From Stdlib Require Import ZArith List String Ascii Bool Lia.
Import ListNotations.

Local Open Scope Z_scope.

(* ================================================================== *)
(** * The C library functions the file uses *)
(* ================================================================== *)

Module Libc.

(** A [string] [s] stands for the character buffer holding the
    characters of [s] followed by a terminating NUL. *)
Definition NUL : ascii := Ascii.zero.

Definition code (c : ascii) : Z := Z.of_N (N_of_ascii c).

(** [*s]: the first character of the buffer. *)
Definition deref (s : string) : ascii :=
  match s with
  | EmptyString => NUL
  | String c _ => c
  end.

(** [s + 1]. It is never taken at the terminating NUL. *)
Definition next (s : string) : string :=
  match s with
  | EmptyString => EmptyString
  | String _ t => t
  end.

(** [int tolower(int c)] in the "C" locale. *)
Definition tolower (c : Z) : Z :=
  if (65 <=? c) && (c <=? 90) then c + 32 else c.

(** [size_t strlen(const char *s)]: characters before the first NUL. *)
Fixpoint strlen (s : string) : nat :=
  match s with
  | EmptyString => O
  | String c t => if Ascii.eqb c NUL then O else S (strlen t)
  end.

(** [int strncasecmp(const char *s1, const char *s2, size_t n)]:
    compares at most [n] characters ignoring case and stops at the
    first difference or at the end of the strings. *)
Fixpoint strncasecmp (s1 s2 : string) (n : nat) : Z :=
  match n with
  | O => 0
  | S n' =>
      let c1 := tolower (code (deref s1)) in
      let c2 := tolower (code (deref s2)) in
      let d := c1 - c2 in
      if negb (d =? 0) || (c2 =? 0) then d
      else strncasecmp (next s1) (next s2) n'
  end.

(** A string as the C code can hold it: no NUL before the end. *)
Fixpoint nul_free (s : string) : bool :=
  match s with
  | EmptyString => true
  | String c t => negb (Ascii.eqb c NUL) && nul_free t
  end.

End Libc.

Import Libc.

(* ================================================================== *)
(** * Error codes ([esp_err.h]) *)
(* ================================================================== *)

Definition esp_err_t := Z.
Definition ESP_OK : esp_err_t := 0.
Definition ESP_ERR_INVALID_ARG : esp_err_t := 258.   (* 0x102 *)
Definition ESP_ERR_INVALID_STATE : esp_err_t := 259. (* 0x103 *)
Definition ESP_ERR_NOT_FOUND : esp_err_t := 261.     (* 0x105 *)

(* ================================================================== *)
(** * The emotion table *)
(* ================================================================== *)

(** Modelled from the spec: the [DISP_EMOTE_*] macros are defined in
    [app_display.h], which is not among the sources; the spec lists the
    fixed closed set as neutral, happy, sad, crying, angry, sleepy,
    confused, shocked, winking, idle. *)
Definition DISP_EMOTE_NEUTRAL : string := "neutral".
Definition DISP_EMOTE_HAPPY : string := "happy".
Definition DISP_EMOTE_SAD : string := "sad".
Definition DISP_EMOTE_CRYING : string := "crying".
Definition DISP_EMOTE_ANGRY : string := "angry".
Definition DISP_EMOTE_SLEEPY : string := "sleepy".
Definition DISP_EMOTE_CONFUSED : string := "confused".
Definition DISP_EMOTE_SHOCKED : string := "shocked".
Definition DISP_EMOTE_WINKING : string := "winking".
Definition DISP_EMOTE_IDLE : string := "idle".

Definition valid_emotions : list string :=
  [ DISP_EMOTE_NEUTRAL;
    DISP_EMOTE_HAPPY;
    DISP_EMOTE_SAD;
    DISP_EMOTE_CRYING;
    DISP_EMOTE_ANGRY;
    DISP_EMOTE_SLEEPY;
    DISP_EMOTE_CONFUSED;
    DISP_EMOTE_SHOCKED;
    DISP_EMOTE_WINKING;
    DISP_EMOTE_IDLE ].

(** The test both loops make on a candidate:
    [strncasecmp(emotion, valid_emotions[i], strlen(valid_emotions[i])) == 0]. *)
Definition emotion_matches (emotion candidate : string) : bool :=
  strncasecmp emotion candidate (strlen candidate) =? 0.

(* ================================================================== *)
(** * Data model *)
(* ================================================================== *)

(** Opaque handles and object pointers; [NULL] is the null pointer. *)
Definition handle := Z.
Definition NULL : handle := 0.
Definition is_null (h : handle) : bool := h =? NULL.

(** [app_device_text_type_t] ([app_device.h]); [_other] stands for any
    value of the C enum type outside the three named ones. *)
Inductive app_device_text_type_t :=
| APP_DEVICE_TEXT_TYPE_USER
| APP_DEVICE_TEXT_TYPE_ASSISTANT
| APP_DEVICE_TEXT_TYPE_SYSTEM
| APP_DEVICE_TEXT_TYPE_other (v : Z).

(** [app_device_system_state_t] ([app_device.h]), likewise. *)
Inductive app_device_system_state_t :=
| APP_DEVICE_SYSTEM_STATE_LISTENING
| APP_DEVICE_SYSTEM_STATE_SLEEP
| APP_DEVICE_SYSTEM_STATE_ACTIVE
| APP_DEVICE_SYSTEM_STATE_other (v : Z).

(** The message kinds of the emote engine that this file posts. *)
Inductive emote_mgr_evt :=
| EMOTE_MGR_EVT_SPEAK
| EMOTE_MGR_EVT_SYS
| EMOTE_MGR_EVT_LISTEN.

(** Event bases are compared by identity. *)
Inductive esp_event_base_t :=
| APP_NETWORK_EVENT
| WIFI_EVENT
| OTHER_EVENT_BASE (name : string).

(** [wifi_event_t] of ESP-IDF. *)
Definition WIFI_EVENT_STA_CONNECTED : Z := 4.
Definition WIFI_EVENT_STA_DISCONNECTED : Z := 5.

(** The handler functions of this file that can be registered. *)
Inductive event_handler := display_event_handler_fn.

Record registration := {
  reg_base : esp_event_base_t;
  reg_id : Z;
  reg_handler : event_handler
}.

Record app_display_data_t := {
  initialized : bool;
  panel_handle : handle;
  io_handle : handle;
  emote_handle : handle;
  touch_handle : handle;
  gfx_handle : handle;
  h_res : Z;
  v_res : Z
}.

(** Every call that leaves [app_display.c], with its arguments. *)
Inductive call :=
| call_esp_board_device_get_handle (name : string)
| call_esp_board_device_get_config (name : string)
| call_esp_board_periph_get_config
| call_ledc_set_duty (duty : Z)
| call_ledc_update_duty
| call_heap_caps_calloc (n : Z)
| call_heap_caps_free
| call_vTaskDelay_ms (ms : Z)
| call_esp_lcd_panel_draw_bitmap (panel : handle) (x0 y0 x1 y1 : Z)
| call_esp_lcd_panel_disp_on_off (panel : handle) (on : bool)
| call_esp_lcd_panel_swap_xy (panel : handle) (swap : bool)
| call_esp_lcd_panel_mirror (panel : handle) (mx my : bool)
| call_app_touch_press_init
| call_emote_init (hres vres buf_pixels : Z)
| call_emote_is_initialized (h : handle)
| call_emote_deinit (h : handle)
| call_esp_lcd_panel_io_register_event_callbacks (io user_ctx : handle)
| call_emote_load_assets_from_source (h : handle) (partition_label : string)
| call_emote_set_event_msg (h : handle) (evt : emote_mgr_evt) (msg : option string)
| call_emote_get_obj_by_name (h : handle) (name : string)
| call_gfx_obj_get_pos (obj : handle)
| call_gfx_obj_align (obj : handle) (x y : Z)
| call_gfx_label_set_long_mode (obj : handle)
| call_gfx_label_set_scroll_step (obj : handle) (step : Z)
| call_gfx_label_set_scroll_speed (obj : handle) (speed : Z)
| call_gfx_obj_set_visible (obj : handle) (visible : bool)
| call_gfx_touch_configure (gfx touch : handle) (poll_ms : Z)
| call_esp_event_handler_register (base : esp_event_base_t) (id : Z) (f : event_handler)
| call_esp_event_handler_unregister (base : esp_event_base_t) (id : Z) (f : event_handler)
| call_emote_set_anim_emoji (h : handle) (name : string)
| call_emote_set_qrcode_data (h : handle) (text : option string).

(** What the build configuration and the collaborators answer.  Nothing
    is assumed about these values. *)
Record env := {
  (* board_defs.h, sdkconfig.h, app_network.h *)
  LEDC_BACKLIGHT_SUPPORTED : bool;
  LCD_MIRROR_X_Y : bool;
  CONFIG_APP_EMOTE_PARTITION_LABEL : string;
  APP_NETWORK_EVENT_QR_DISPLAY : Z;
  (* board and device layer *)
  esp_board_device_get_handle_ret : string -> esp_err_t;
  esp_board_device_get_config_ret : string -> esp_err_t;
  esp_board_periph_get_config_ret : esp_err_t;
  display_lcd_panel_handle : handle;
  display_lcd_io_handle : handle;
  lcd_width : Z;
  lcd_height : Z;
  lcd_touch_touch_handle : handle;
  ledc_duty_resolution : Z;
  ledc_set_duty_ret : esp_err_t;
  ledc_update_duty_ret : esp_err_t;
  (* heap and panel driver *)
  heap_caps_calloc_ret : handle;
  esp_lcd_panel_disp_on_off_ret : esp_err_t;
  esp_lcd_panel_io_register_event_callbacks_ret : esp_err_t;
  (* emote engine *)
  emote_init_ret : handle;
  emote_is_initialized_ret : bool;
  emote_gfx_emote_handle : handle;
  emote_get_obj_by_name_ret : string -> handle;
  gfx_obj_get_pos_y : Z;
  emote_set_event_msg_ret : handle -> emote_mgr_evt -> option string -> esp_err_t
}.

(** The state the file works on: its static [s_display_data], the
    default event loop's registrations, and the calls made so far
    (oldest first). *)
Record world := {
  s_display_data : app_display_data_t;
  event_loop : list registration;
  trace : list call
}.

(** [static app_display_data_t s_display_data = {0};] *)
Definition s_display_data_zero : app_display_data_t :=
  {| initialized := false; panel_handle := NULL; io_handle := NULL;
     emote_handle := NULL; touch_handle := NULL; gfx_handle := NULL;
     h_res := 0; v_res := 0 |}.

Definition boot_world : world :=
  {| s_display_data := s_display_data_zero; event_loop := []; trace := [] |}.

(* ================================================================== *)
(** * A state monad over [world] *)
(* ================================================================== *)

Definition M (A : Type) : Type := world -> A * world.

Definition ret {A} (a : A) : M A := fun w => (a, w).

Definition bind {A B} (m : M A) (k : A -> M B) : M B :=
  fun w => let (a, w') := m w in k a w'.

Declare Scope monad_scope.
Delimit Scope monad_scope with M.
Notation "x <- m ;; k" := (bind m (fun x => k))
  (at level 61, m at next level, right associativity) : monad_scope.
Notation "m ;; k" := (bind m (fun _ => k))
  (at level 61, right associativity) : monad_scope.
Local Open Scope monad_scope.

Definition get_data : M app_display_data_t := fun w => (s_display_data w, w).

Definition put_data (d : app_display_data_t) : M unit :=
  fun w => (tt, {| s_display_data := d; event_loop := event_loop w; trace := trace w |}).

(** Record one outgoing call. *)
Definition emit (c : call) : M unit :=
  fun w => (tt, {| s_display_data := s_display_data w;
                   event_loop := event_loop w;
                   trace := trace w ++ [c] |}).

Definition when (b : bool) (m : M unit) : M unit := if b then m else ret tt.

(** [ESP_RETURN_ON_ERROR(x, TAG, ...)]: leave the function with the
    error of [x], or go on. *)
Definition ESP_RETURN_ON_ERROR {A} (x : M esp_err_t) (err : esp_err_t -> A) (k : M A) : M A :=
  r <- x ;; if r =? ESP_OK then k else ret (err r).

(* ================================================================== *)
(** * Collaborators: a call is recorded, its answer comes from [env] *)
(* ================================================================== *)

Section Collaborators.
Variable e : env.

Definition esp_board_device_get_handle (name : string) : M esp_err_t :=
  emit (call_esp_board_device_get_handle name) ;;
  ret (esp_board_device_get_handle_ret e name).

Definition esp_board_device_get_config (name : string) : M esp_err_t :=
  emit (call_esp_board_device_get_config name) ;;
  ret (esp_board_device_get_config_ret e name).

Definition esp_board_periph_get_config : M esp_err_t :=
  emit call_esp_board_periph_get_config ;;
  ret (esp_board_periph_get_config_ret e).

Definition ledc_set_duty (duty : Z) : M esp_err_t :=
  emit (call_ledc_set_duty duty) ;; ret (ledc_set_duty_ret e).

Definition ledc_update_duty : M esp_err_t :=
  emit call_ledc_update_duty ;; ret (ledc_update_duty_ret e).

Definition esp_lcd_panel_disp_on_off (panel : handle) (on : bool) : M esp_err_t :=
  emit (call_esp_lcd_panel_disp_on_off panel on) ;;
  ret (esp_lcd_panel_disp_on_off_ret e).

Definition esp_lcd_panel_io_register_event_callbacks (io ctx : handle) : M esp_err_t :=
  emit (call_esp_lcd_panel_io_register_event_callbacks io ctx) ;;
  ret (esp_lcd_panel_io_register_event_callbacks_ret e).

Definition emote_set_event_msg (h : handle) (evt : emote_mgr_evt)
           (msg : option string) : M esp_err_t :=
  emit (call_emote_set_event_msg h evt msg) ;;
  ret (emote_set_event_msg_ret e h evt msg).

Definition emote_get_obj_by_name (h : handle) (name : string) : M handle :=
  emit (call_emote_get_obj_by_name h name) ;;
  ret (emote_get_obj_by_name_ret e name).

Definition emote_set_anim_emoji (h : handle) (name : string) : M unit :=
  emit (call_emote_set_anim_emoji h name).

Definition emote_set_qrcode_data (h : handle) (text : option string) : M unit :=
  emit (call_emote_set_qrcode_data h text).

End Collaborators.

(** The default event loop, as far as this file uses it: a handler is
    registered at most once for an event, and unregistering removes it. *)
Definition esp_event_base_eqb (a b : esp_event_base_t) : bool :=
  match a, b with
  | APP_NETWORK_EVENT, APP_NETWORK_EVENT => true
  | WIFI_EVENT, WIFI_EVENT => true
  | OTHER_EVENT_BASE x, OTHER_EVENT_BASE y => String.eqb x y
  | _, _ => false
  end.

Definition reg_matches (base : esp_event_base_t) (id : Z) (r : registration) : bool :=
  esp_event_base_eqb (reg_base r) base && (reg_id r =? id).

Definition set_event_loop (l : list registration) : M unit :=
  fun w => (tt, {| s_display_data := s_display_data w; event_loop := l; trace := trace w |}).

Definition esp_event_handler_register (base : esp_event_base_t) (id : Z)
           (f : event_handler) : M unit :=
  emit (call_esp_event_handler_register base id f) ;;
  fun w =>
    if existsb (reg_matches base id) (event_loop w) then (tt, w)
    else set_event_loop
           (event_loop w ++ [ {| reg_base := base; reg_id := id; reg_handler := f |} ]) w.

Definition esp_event_handler_unregister (base : esp_event_base_t) (id : Z)
           (f : event_handler) : M unit :=
  emit (call_esp_event_handler_unregister base id f) ;;
  fun w =>
    set_event_loop (filter (fun r => negb (reg_matches base id r)) (event_loop w)) w.

(** A value stored in a 32-bit [int]: two's-complement wrap-around. *)
Definition int32 (z : Z) : Z := (z + 2 ^ 31) mod 2 ^ 32 - 2 ^ 31.

(* ================================================================== *)
(** * The functions of [app_display.c] *)
(* ================================================================== *)

Section AppDisplay.
Variable e : env.

Definition emote_get_gfx_handle (emote : handle) : handle :=
  if is_null emote then NULL else emote_gfx_emote_handle e.

Definition change_emotion_visibility (emote : handle) (visible : bool) : M unit :=
  if is_null emote then ret tt
  else
    obj <- emote_get_obj_by_name e emote "eye_anim" ;;
    when (negb (is_null obj)) (emit (call_gfx_obj_set_visible obj visible)).

(** [#if LEDC_BACKLIGHT_SUPPORTED].  The function is declared [bool];
    an error code returned through [ESP_RETURN_ON_ERROR] is non-zero
    and therefore reads as [true].  The duty is computed in 32-bit
    [int] (shift, subtraction, product, division towards zero) and then
    stored in a [uint32_t]. *)
Definition set_lcd_backlight (brightness_percent : Z) : M bool :=
  ESP_RETURN_ON_ERROR (esp_board_device_get_handle e "lcd_brightness") (fun _ => true) (
  ESP_RETURN_ON_ERROR (esp_board_device_get_config e "lcd_brightness") (fun _ => true) (
  ESP_RETURN_ON_ERROR (esp_board_periph_get_config e) (fun _ => true) (
  let duty :=
    (Z.quot (int32 (brightness_percent
                    * int32 (int32 (Z.shiftl 1 (ledc_duty_resolution e)) - 1))) 100)
      mod 2 ^ 32 in
  ESP_RETURN_ON_ERROR (ledc_set_duty e duty) (fun _ => true) (
  ESP_RETURN_ON_ERROR (ledc_update_duty e) (fun _ => true) (
  ret true))))).

Definition app_display_set_text (text_type : app_device_text_type_t)
           (text : option string) (arg : handle) : M esp_err_t :=
  d <- get_data ;;
  if negb (initialized d) then ret ESP_ERR_INVALID_STATE
  else
    match text_type with
    | APP_DEVICE_TEXT_TYPE_USER => ret ESP_OK
    | APP_DEVICE_TEXT_TYPE_ASSISTANT =>
        match text with
        | Some t =>
            if (0 <? strlen t)%nat
            then emote_set_event_msg e (emote_handle d) EMOTE_MGR_EVT_SPEAK text ;;
                 ret ESP_OK
            else ret ESP_OK
        | None => ret ESP_OK
        end
    | APP_DEVICE_TEXT_TYPE_SYSTEM =>
        emote_set_event_msg e (emote_handle d) EMOTE_MGR_EVT_SYS text ;;
        ret ESP_OK
    | APP_DEVICE_TEXT_TYPE_other _ => ret ESP_ERR_INVALID_ARG
    end.

Definition app_display_send_event (event message : option string) : M esp_err_t :=
  d <- get_data ;;
  if negb (initialized d) then ret ESP_ERR_INVALID_STATE
  else ret ESP_OK.

(** [for (i = 0; i < num_valid_emotions; i++)] of
    [app_display_is_emotion_valid], from candidate [i] on. *)
Fixpoint is_emotion_valid_from (emotion : string) (cands : list string) : bool :=
  match cands with
  | [] => false
  | c :: rest =>
      if emotion_matches emotion c then true
      else is_emotion_valid_from emotion rest
  end.

Definition app_display_is_emotion_valid (emotion : string) : M bool :=
  ret (is_emotion_valid_from emotion valid_emotions).

(** The loop of [app_display_set_emotion], from candidate [i] on. *)
Fixpoint set_emotion_from (emote : handle) (emotion : string)
         (cands : list string) : M esp_err_t :=
  match cands with
  | [] => ret ESP_ERR_INVALID_ARG
  | c :: rest =>
      if emotion_matches emotion c
      then emote_set_anim_emoji emote c ;; ret ESP_OK
      else set_emotion_from emote emotion rest
  end.

(** [emotion] is a valid string: both loops hand it to [strncasecmp]
    unchecked, so a null pointer is outside what the code defines. *)
Definition app_display_set_emotion (emotion : string) : M esp_err_t :=
  d <- get_data ;;
  if negb (initialized d) then ret ESP_ERR_INVALID_STATE
  else set_emotion_from (emote_handle d) emotion valid_emotions.

Definition app_display_system_state_changed (new_state : app_device_system_state_t)
           (arg : handle) : M esp_err_t :=
  d <- get_data ;;
  if negb (initialized d) then ret ESP_ERR_INVALID_STATE
  else
    match new_state with
    | APP_DEVICE_SYSTEM_STATE_LISTENING =>
        _ <- app_display_set_emotion DISP_EMOTE_IDLE ;;
        err <- emote_set_event_msg e (emote_handle d) EMOTE_MGR_EVT_LISTEN None ;;
        ret err
    | APP_DEVICE_SYSTEM_STATE_SLEEP =>
        err <- app_display_set_emotion DISP_EMOTE_SLEEPY ;;
        ret err
    | APP_DEVICE_SYSTEM_STATE_ACTIVE => ret ESP_OK
    | APP_DEVICE_SYSTEM_STATE_other _ => ret ESP_ERR_INVALID_ARG
    end.

Definition display_event_handler (arg : handle) (event_base : esp_event_base_t)
           (event_id : Z) (event_data : option string) : M unit :=
  if esp_event_base_eqb event_base APP_NETWORK_EVENT
     && (event_id =? APP_NETWORK_EVENT_QR_DISPLAY e)
  then
    let text := event_data in
    app_display_set_text APP_DEVICE_TEXT_TYPE_SYSTEM
                         (Some "Scan QR code with RainMaker"%string) NULL ;;
    d <- get_data ;;
    change_emotion_visibility (emote_handle d) false ;;
    emote_set_qrcode_data (emote_handle d) text ;;
    esp_event_handler_unregister APP_NETWORK_EVENT (APP_NETWORK_EVENT_QR_DISPLAY e)
                                 display_event_handler_fn
  else if esp_event_base_eqb event_base WIFI_EVENT
          && (event_id =? WIFI_EVENT_STA_CONNECTED)
  then
    app_display_set_text APP_DEVICE_TEXT_TYPE_SYSTEM (Some "WiFi connected"%string) NULL ;;
    app_display_set_emotion DISP_EMOTE_IDLE ;;
    ret tt
  else if esp_event_base_eqb event_base WIFI_EVENT
          && (event_id =? WIFI_EVENT_STA_DISCONNECTED)
  then
    app_display_set_text APP_DEVICE_TEXT_TYPE_SYSTEM (Some "WiFi connecting..."%string) NULL ;;
    app_display_set_emotion DISP_EMOTE_IDLE ;;
    ret tt
  else ret tt.

(** [init_emote]: the configuration is fixed but for the resolution;
    [buf_pixels] is [h_res * 10] in 32-bit unsigned arithmetic. *)
Definition init_emote (hres vres : Z) : M handle :=
  emit (call_emote_init hres vres ((hres * 10) mod 2 ^ 32)) ;;
  let h := emote_init_ret e in
  if is_null h then ret NULL
  else
    emit (call_emote_is_initialized h) ;;
    if negb (emote_is_initialized_ret e)
    then emit (call_emote_deinit h) ;; ret NULL
    else ret h.

Definition init_display : M esp_err_t :=
  ESP_RETURN_ON_ERROR (esp_board_device_get_handle e "display_lcd") (fun r => r) (
  ESP_RETURN_ON_ERROR (esp_board_device_get_config e "display_lcd") (fun r => r) (
  ESP_RETURN_ON_ERROR (esp_board_device_get_handle e "lcd_touch") (fun r => r) (
  let touch := lcd_touch_touch_handle e in
  let panel := display_lcd_panel_handle e in
  emit (call_heap_caps_calloc (lcd_width e * lcd_height e * 2)) ;;
  when (negb (is_null (heap_caps_calloc_ret e)))
       (emit (call_esp_lcd_panel_draw_bitmap panel 0 0 (lcd_width e) (lcd_height e)) ;;
        emit call_heap_caps_free ;;
        emit (call_vTaskDelay_ms 50)) ;;
  ESP_RETURN_ON_ERROR (esp_lcd_panel_disp_on_off e panel true) (fun r => r) (
  when (LEDC_BACKLIGHT_SUPPORTED e) (set_lcd_backlight 100 ;; ret tt) ;;
  emit (call_esp_lcd_panel_swap_xy panel false) ;;
  when (LCD_MIRROR_X_Y e) (emit (call_esp_lcd_panel_mirror panel true true)) ;;
  d <- get_data ;;
  put_data {| initialized := initialized d;
              panel_handle := panel;
              io_handle := display_lcd_io_handle e;
              emote_handle := emote_handle d;
              touch_handle := touch;
              gfx_handle := gfx_handle d;
              h_res := lcd_width e mod 2 ^ 32;
              v_res := lcd_height e mod 2 ^ 32 |} ;;
  emit call_app_touch_press_init ;;
  ret ESP_OK)))).

Definition set_emote_handle (h : handle) : M unit :=
  d <- get_data ;;
  put_data {| initialized := initialized d; panel_handle := panel_handle d;
              io_handle := io_handle d; emote_handle := h;
              touch_handle := touch_handle d; gfx_handle := gfx_handle d;
              h_res := h_res d; v_res := v_res d |}.

Definition set_gfx_handle (h : handle) : M unit :=
  d <- get_data ;;
  put_data {| initialized := initialized d; panel_handle := panel_handle d;
              io_handle := io_handle d; emote_handle := emote_handle d;
              touch_handle := touch_handle d; gfx_handle := h;
              h_res := h_res d; v_res := v_res d |}.

Definition set_initialized (b : bool) : M unit :=
  d <- get_data ;;
  put_data {| initialized := b; panel_handle := panel_handle d;
              io_handle := io_handle d; emote_handle := emote_handle d;
              touch_handle := touch_handle d; gfx_handle := gfx_handle d;
              h_res := h_res d; v_res := v_res d |}.

Definition app_display_init : M esp_err_t :=
  d0 <- get_data ;;
  if initialized d0 then ret ESP_OK
  else
    ESP_RETURN_ON_ERROR init_display (fun r => r) (
    d1 <- get_data ;;
    h <- init_emote (h_res d1) (v_res d1) ;;
    set_emote_handle h ;;
    when (negb (is_null (io_handle d1)) && negb (is_null h))
         (esp_lcd_panel_io_register_event_callbacks e (io_handle d1) h ;; ret tt) ;;
    when (negb (is_null h))
         (emit (call_emote_load_assets_from_source h (CONFIG_APP_EMOTE_PARTITION_LABEL e)) ;;
          emote_set_event_msg e h EMOTE_MGR_EVT_SYS (Some "Initializing..."%string) ;;
          label <- emote_get_obj_by_name e h "toast_label" ;;
          emit (call_gfx_obj_get_pos label) ;;
          emit (call_gfx_obj_align label 0 (gfx_obj_get_pos_y e)) ;;
          emit (call_gfx_label_set_long_mode label) ;;
          emit (call_gfx_label_set_scroll_step label 4) ;;
          emit (call_gfx_label_set_scroll_speed label 100)) ;;
    let gfx := emote_get_gfx_handle h in
    set_gfx_handle gfx ;;
    when (negb (is_null (touch_handle d1)) && negb (is_null gfx))
         (emit (call_gfx_touch_configure gfx (touch_handle d1) 15)) ;;
    esp_event_handler_register APP_NETWORK_EVENT (APP_NETWORK_EVENT_QR_DISPLAY e)
                               display_event_handler_fn ;;
    set_initialized true ;;
    app_display_set_emotion DISP_EMOTE_IDLE ;;
    ret ESP_OK).

(** Delivery of one posted event by the event loop: the handlers
    registered for it when it is delivered run in turn. *)
Definition run_handler (f : event_handler) (base : esp_event_base_t) (id : Z)
           (data : option string) : M unit :=
  match f with
  | display_event_handler_fn => display_event_handler NULL base id data
  end.

Fixpoint run_handlers (rs : list registration) (base : esp_event_base_t) (id : Z)
         (data : option string) : M unit :=
  match rs with
  | [] => ret tt
  | r :: rest => run_handler (reg_handler r) base id data ;;
                 run_handlers rest base id data
  end.

Definition esp_event_deliver (base : esp_event_base_t) (id : Z)
           (data : option string) : M unit :=
  fun w => run_handlers (filter (reg_matches base id) (event_loop w)) base id data w.

End AppDisplay.

(** The world [w] after the further calls [cs], nothing else changed. *)
Definition with_calls (w : world) (cs : list call) : world :=
  {| s_display_data := s_display_data w;
     event_loop := event_loop w;
     trace := trace w ++ cs |}.

(* ================================================================== *)
(** * What the engine has been told: views of the trace *)
(* ================================================================== *)

(** The text of the latest system message posted to the engine. *)
Definition status_text (tr : list call) : option (option string) :=
  fold_left (fun acc c =>
               match c with
               | call_emote_set_event_msg _ EMOTE_MGR_EVT_SYS m => Some m
               | _ => acc
               end) tr None.

(** The emotion the engine was last asked to show. *)
Definition current_emotion (tr : list call) : option string :=
  fold_left (fun acc c =>
               match c with
               | call_emote_set_anim_emoji _ name => Some name
               | _ => acc
               end) tr None.

Definition is_qrcode_push (c : call) : bool :=
  match c with call_emote_set_qrcode_data _ _ => true | _ => false end.

Definition is_touch_configure (c : call) : bool :=
  match c with call_gfx_touch_configure _ _ _ => true | _ => false end.

(** Messages posted on a given engine channel. *)
Definition is_event_msg (evt : emote_mgr_evt) (c : call) : bool :=
  match c, evt with
  | call_emote_set_event_msg _ EMOTE_MGR_EVT_SPEAK _, EMOTE_MGR_EVT_SPEAK => true
  | call_emote_set_event_msg _ EMOTE_MGR_EVT_SYS _, EMOTE_MGR_EVT_SYS => true
  | call_emote_set_event_msg _ EMOTE_MGR_EVT_LISTEN _, EMOTE_MGR_EVT_LISTEN => true
  | _, _ => false
  end.

(* ================================================================== *)
(** * The matching rule in the spec's words *)
(* ================================================================== *)

Definition lower_codes (s : string) : list Z :=
  map (fun c => tolower (code c)) (list_ascii_of_string s).

(** The input is at least as long as the candidate and begins with it,
    compared ignoring case. *)
Definition begins_with_ignoring_case (input candidate : string) : Prop :=
  (String.length candidate <= String.length input)%nat /\
  lower_codes (substring 0 (String.length candidate) input) = lower_codes candidate.

(** [c] is the first candidate of [cands], in declaration order, that
    the input begins with. *)
Definition first_match (input : string) (cands : list string) (c : string) : Prop :=
  exists before after,
    cands = before ++ c :: after /\
    begins_with_ignoring_case input c /\
    forall b, In b before -> ~ begins_with_ignoring_case input b.

(** A board with panel, touch and engine all present and answering. *)
Definition mock_env : env :=
  {| LEDC_BACKLIGHT_SUPPORTED := true;
     LCD_MIRROR_X_Y := false;
     CONFIG_APP_EMOTE_PARTITION_LABEL := "anim_icon";
     APP_NETWORK_EVENT_QR_DISPLAY := 0;
     esp_board_device_get_handle_ret := fun _ => ESP_OK;
     esp_board_device_get_config_ret := fun _ => ESP_OK;
     esp_board_periph_get_config_ret := ESP_OK;
     display_lcd_panel_handle := 11;
     display_lcd_io_handle := 12;
     lcd_width := 320;
     lcd_height := 240;
     lcd_touch_touch_handle := 13;
     ledc_duty_resolution := 10;
     ledc_set_duty_ret := ESP_OK;
     ledc_update_duty_ret := ESP_OK;
     heap_caps_calloc_ret := 14;
     esp_lcd_panel_disp_on_off_ret := ESP_OK;
     esp_lcd_panel_io_register_event_callbacks_ret := ESP_OK;
     emote_init_ret := 15;
     emote_is_initialized_ret := true;
     emote_gfx_emote_handle := 16;
     emote_get_obj_by_name_ret := fun _ => 17;
     gfx_obj_get_pos_y := 8;
     emote_set_event_msg_ret := fun _ _ _ => ESP_OK |}.

(* ================================================================== *)
(** * Initialization in closed form *)
(* ================================================================== *)

(** The steps of [init_display] that can abort it all succeed. *)
Definition bring_up_succeeds (e : env) : Prop :=
  esp_board_device_get_handle_ret e "display_lcd" = ESP_OK /\
  esp_board_device_get_config_ret e "display_lcd" = ESP_OK /\
  esp_board_device_get_handle_ret e "lcd_touch" = ESP_OK /\
  esp_lcd_panel_disp_on_off_ret e = ESP_OK.

(** The calls [set_lcd_backlight] makes. *)
Definition set_lcd_backlight_calls (e : env) (brightness_percent : Z) : list call :=
  trace (snd (set_lcd_backlight e brightness_percent boot_world)).

(** The calls of a successful [init_display], in order. *)
Definition bring_up_calls (e : env) : list call :=
  [ call_esp_board_device_get_handle "display_lcd";
    call_esp_board_device_get_config "display_lcd";
    call_esp_board_device_get_handle "lcd_touch";
    call_heap_caps_calloc (lcd_width e * lcd_height e * 2) ]
  ++ (if is_null (heap_caps_calloc_ret e) then []
      else [ call_esp_lcd_panel_draw_bitmap (display_lcd_panel_handle e) 0 0
                                            (lcd_width e) (lcd_height e);
             call_heap_caps_free;
             call_vTaskDelay_ms 50 ])
  ++ [ call_esp_lcd_panel_disp_on_off (display_lcd_panel_handle e) true ]
  ++ (if LEDC_BACKLIGHT_SUPPORTED e then set_lcd_backlight_calls e 100 else [])
  ++ [ call_esp_lcd_panel_swap_xy (display_lcd_panel_handle e) false ]
  ++ (if LCD_MIRROR_X_Y e
      then [ call_esp_lcd_panel_mirror (display_lcd_panel_handle e) true true ]
      else [])
  ++ [ call_app_touch_press_init ].

(** [s_display_data] after a successful [init_display]. *)
Definition bring_up_data (e : env) (d : app_display_data_t) : app_display_data_t :=
  {| initialized := initialized d;
     panel_handle := display_lcd_panel_handle e;
     io_handle := display_lcd_io_handle e;
     emote_handle := emote_handle d;
     touch_handle := lcd_touch_touch_handle e;
     gfx_handle := gfx_handle d;
     h_res := lcd_width e mod 2 ^ 32;
     v_res := lcd_height e mod 2 ^ 32 |}.

(** The handle [init_emote] hands back. *)
Definition engine_handle (e : env) : handle :=
  if is_null (emote_init_ret e) then NULL
  else if emote_is_initialized_ret e then emote_init_ret e
  else NULL.

(** The calls [init_emote] makes. *)
Definition init_emote_calls (e : env) (hres vres : Z) : list call :=
  call_emote_init hres vres ((hres * 10) mod 2 ^ 32)
  :: (if is_null (emote_init_ret e) then []
      else call_emote_is_initialized (emote_init_ret e)
           :: (if emote_is_initialized_ret e then []
               else [ call_emote_deinit (emote_init_ret e) ])).

(** The steps that need the engine handle [h]. *)
Definition engine_dependent_calls (e : env) (io h : handle) : list call :=
  (if negb (is_null io) && negb (is_null h)
   then [ call_esp_lcd_panel_io_register_event_callbacks io h ] else [])
  ++ (if negb (is_null h)
      then [ call_emote_load_assets_from_source h (CONFIG_APP_EMOTE_PARTITION_LABEL e);
             call_emote_set_event_msg h EMOTE_MGR_EVT_SYS (Some "Initializing..."%string);
             call_emote_get_obj_by_name h "toast_label";
             call_gfx_obj_get_pos (emote_get_obj_by_name_ret e "toast_label");
             call_gfx_obj_align (emote_get_obj_by_name_ret e "toast_label") 0
                                (gfx_obj_get_pos_y e);
             call_gfx_label_set_long_mode (emote_get_obj_by_name_ret e "toast_label");
             call_gfx_label_set_scroll_step (emote_get_obj_by_name_ret e "toast_label") 4;
             call_gfx_label_set_scroll_speed (emote_get_obj_by_name_ret e "toast_label") 100 ]
      else []).

(** The step that needs the touch handle and the engine's surface. *)
Definition touch_dependent_calls (gfx touch : handle) : list call :=
  if negb (is_null touch) && negb (is_null gfx)
  then [ call_gfx_touch_configure gfx touch 15 ] else [].

(** The calls of [app_display_init] after [init_display] returned with
    the data [d1]. *)
Definition engine_setup_calls (e : env) (d1 : app_display_data_t) : list call :=
  let h := engine_handle e in
  init_emote_calls e (h_res d1) (v_res d1)
  ++ engine_dependent_calls e (io_handle d1) h
  ++ touch_dependent_calls (emote_get_gfx_handle e h) (touch_handle d1)
  ++ [ call_esp_event_handler_register APP_NETWORK_EVENT (APP_NETWORK_EVENT_QR_DISPLAY e)
                                       display_event_handler_fn;
       call_emote_set_anim_emoji h DISP_EMOTE_IDLE ].

Definition qr_registration (e : env) : registration :=
  {| reg_base := APP_NETWORK_EVENT;
     reg_id := APP_NETWORK_EVENT_QR_DISPLAY e;
     reg_handler := display_event_handler_fn |}.

(** The world after a successful [app_display_init] whose [init_display]
    step ended in [w1]. *)
Definition initialized_world (e : env) (w1 : world) : world :=
  let d1 := s_display_data w1 in
  {| s_display_data :=
       {| initialized := true;
          panel_handle := panel_handle d1;
          io_handle := io_handle d1;
          emote_handle := engine_handle e;
          touch_handle := touch_handle d1;
          gfx_handle := emote_get_gfx_handle e (engine_handle e);
          h_res := h_res d1;
          v_res := v_res d1 |};
     event_loop :=
       if existsb (reg_matches APP_NETWORK_EVENT (APP_NETWORK_EVENT_QR_DISPLAY e))
                  (event_loop w1)
       then event_loop w1
       else event_loop w1 ++ [qr_registration e];
     trace := trace w1 ++ engine_setup_calls e d1 |}.

(** The calls of the QR branch of [display_event_handler] when the
    display is initialized and holds the engine handle [h]. *)
Definition qr_handling_calls (e : env) (h : handle) (text : option string) : list call :=
  [ call_emote_set_event_msg h EMOTE_MGR_EVT_SYS (Some "Scan QR code with RainMaker"%string) ]
  ++ (if is_null h then []
      else call_emote_get_obj_by_name h "eye_anim"
           :: (if is_null (emote_get_obj_by_name_ret e "eye_anim") then []
               else [ call_gfx_obj_set_visible (emote_get_obj_by_name_ret e "eye_anim") false ]))
  ++ [ call_emote_set_qrcode_data h text;
       call_esp_event_handler_unregister APP_NETWORK_EVENT (APP_NETWORK_EVENT_QR_DISPLAY e)
                                         display_event_handler_fn ].

(** The same board with another touch handle behind its touch device. *)
Definition with_touch_handle (e : env) (t : handle) : env :=
  {| LEDC_BACKLIGHT_SUPPORTED := LEDC_BACKLIGHT_SUPPORTED e;
     LCD_MIRROR_X_Y := LCD_MIRROR_X_Y e;
     CONFIG_APP_EMOTE_PARTITION_LABEL := CONFIG_APP_EMOTE_PARTITION_LABEL e;
     APP_NETWORK_EVENT_QR_DISPLAY := APP_NETWORK_EVENT_QR_DISPLAY e;
     esp_board_device_get_handle_ret := esp_board_device_get_handle_ret e;
     esp_board_device_get_config_ret := esp_board_device_get_config_ret e;
     esp_board_periph_get_config_ret := esp_board_periph_get_config_ret e;
     display_lcd_panel_handle := display_lcd_panel_handle e;
     display_lcd_io_handle := display_lcd_io_handle e;
     lcd_width := lcd_width e;
     lcd_height := lcd_height e;
     lcd_touch_touch_handle := t;
     ledc_duty_resolution := ledc_duty_resolution e;
     ledc_set_duty_ret := ledc_set_duty_ret e;
     ledc_update_duty_ret := ledc_update_duty_ret e;
     heap_caps_calloc_ret := heap_caps_calloc_ret e;
     esp_lcd_panel_disp_on_off_ret := esp_lcd_panel_disp_on_off_ret e;
     esp_lcd_panel_io_register_event_callbacks_ret :=
       esp_lcd_panel_io_register_event_callbacks_ret e;
     emote_init_ret := emote_init_ret e;
     emote_is_initialized_ret := emote_is_initialized_ret e;
     emote_gfx_emote_handle := emote_gfx_emote_handle e;
     emote_get_obj_by_name_ret := emote_get_obj_by_name_ret e;
     gfx_obj_get_pos_y := gfx_obj_get_pos_y e;
     emote_set_event_msg_ret := emote_set_event_msg_ret e |}.

(** A board whose touch device is not registered: looking it up fails. *)
Definition no_touch_device_env : env :=
  {| LEDC_BACKLIGHT_SUPPORTED := LEDC_BACKLIGHT_SUPPORTED mock_env;
     LCD_MIRROR_X_Y := LCD_MIRROR_X_Y mock_env;
     CONFIG_APP_EMOTE_PARTITION_LABEL := CONFIG_APP_EMOTE_PARTITION_LABEL mock_env;
     APP_NETWORK_EVENT_QR_DISPLAY := APP_NETWORK_EVENT_QR_DISPLAY mock_env;
     esp_board_device_get_handle_ret :=
       fun name => if String.eqb name "lcd_touch" then ESP_ERR_NOT_FOUND else ESP_OK;
     esp_board_device_get_config_ret := esp_board_device_get_config_ret mock_env;
     esp_board_periph_get_config_ret := esp_board_periph_get_config_ret mock_env;
     display_lcd_panel_handle := display_lcd_panel_handle mock_env;
     display_lcd_io_handle := display_lcd_io_handle mock_env;
     lcd_width := lcd_width mock_env;
     lcd_height := lcd_height mock_env;
     lcd_touch_touch_handle := NULL;
     ledc_duty_resolution := ledc_duty_resolution mock_env;
     ledc_set_duty_ret := ledc_set_duty_ret mock_env;
     ledc_update_duty_ret := ledc_update_duty_ret mock_env;
     heap_caps_calloc_ret := heap_caps_calloc_ret mock_env;
     esp_lcd_panel_disp_on_off_ret := esp_lcd_panel_disp_on_off_ret mock_env;
     esp_lcd_panel_io_register_event_callbacks_ret :=
       esp_lcd_panel_io_register_event_callbacks_ret mock_env;
     emote_init_ret := emote_init_ret mock_env;
     emote_is_initialized_ret := emote_is_initialized_ret mock_env;
     emote_gfx_emote_handle := emote_gfx_emote_handle mock_env;
     emote_get_obj_by_name_ret := emote_get_obj_by_name_ret mock_env;
     gfx_obj_get_pos_y := gfx_obj_get_pos_y mock_env;
     emote_set_event_msg_ret := emote_set_event_msg_ret mock_env |}.

(** A call other than the start of the touch poller. *)
Definition not_touch_configure (c : call) : Prop := is_touch_configure c = false.

(** Computations that leave the registrations of the event loop alone. *)
Definition keeps_loop {A} (m : M A) : Prop :=
  forall w, event_loop (snd (m w)) = event_loop w.

(** The world once [app_display_init] has run on that board from boot. *)
Definition ready_world : world := snd (app_display_init mock_env boot_world).

(* ================================================================== *)
(** * Outcome of the bring-up, and views used to state invariants *)
(* ================================================================== *)

(** The error of the first step of [init_display] that can abort it and
    fails, in the order the steps run; [ESP_OK] when none fails. *)
Definition first_bring_up_error (e : env) : esp_err_t :=
  if negb (esp_board_device_get_handle_ret e "display_lcd" =? ESP_OK)
  then esp_board_device_get_handle_ret e "display_lcd"
  else if negb (esp_board_device_get_config_ret e "display_lcd" =? ESP_OK)
  then esp_board_device_get_config_ret e "display_lcd"
  else if negb (esp_board_device_get_handle_ret e "lcd_touch" =? ESP_OK)
  then esp_board_device_get_handle_ret e "lcd_touch"
  else esp_lcd_panel_disp_on_off_ret e.

(** Calls into the emote engine or its graphics objects. *)
Definition is_engine_call (c : call) : bool :=
  match c with
  | call_emote_init _ _ _ | call_emote_is_initialized _ | call_emote_deinit _
  | call_emote_load_assets_from_source _ _ | call_emote_set_event_msg _ _ _
  | call_emote_get_obj_by_name _ _ | call_gfx_obj_get_pos _ | call_gfx_obj_align _ _ _
  | call_gfx_label_set_long_mode _ | call_gfx_label_set_scroll_step _ _
  | call_gfx_label_set_scroll_speed _ _ | call_gfx_obj_set_visible _ _
  | call_gfx_touch_configure _ _ _ | call_emote_set_anim_emoji _ _
  | call_emote_set_qrcode_data _ _ => true
  | _ => false
  end.

Definition is_emote_deinit (c : call) : bool :=
  match c with call_emote_deinit _ => true | _ => false end.

(** A speak message without text: null or empty. *)
Definition is_empty_speak (c : call) : bool :=
  match c with
  | call_emote_set_event_msg _ EMOTE_MGR_EVT_SPEAK m =>
      match m with
      | Some t => (strlen t =? 0)%nat
      | None => true
      end
  | _ => false
  end.

(** A computation that leaves the part [view] of the world as it was. *)
Definition preserves {V A} (view : world -> V) (m : M A) : Prop :=
  forall w, view (snd (m w)) = view w.

(** How many times a QR payload was pushed to the engine. *)
Definition qr_pushes (w : world) : nat :=
  List.length (filter is_qrcode_push (trace w)).

(** One step of a client of the display: a call of a public function,
    or the event loop delivering a posted event. *)
Inductive api_call :=
| api_init
| api_set_text (text_type : app_device_text_type_t) (text : option string) (arg : handle)
| api_set_emotion (emotion : string)
| api_is_emotion_valid (emotion : string)
| api_system_state_changed (new_state : app_device_system_state_t) (arg : handle)
| api_send_event (event message : option string)
| api_event (base : esp_event_base_t) (id : Z) (data : option string).

Definition run_api (e : env) (c : api_call) : M unit :=
  match c with
  | api_init => (app_display_init e ;; ret tt)%M
  | api_set_text ty text arg => (app_display_set_text e ty text arg ;; ret tt)%M
  | api_set_emotion emotion => (app_display_set_emotion emotion ;; ret tt)%M
  | api_is_emotion_valid emotion => (app_display_is_emotion_valid emotion ;; ret tt)%M
  | api_system_state_changed st arg =>
      (app_display_system_state_changed e st arg ;; ret tt)%M
  | api_send_event event message => (app_display_send_event event message ;; ret tt)%M
  | api_event base id data => esp_event_deliver e base id data
  end.

Fixpoint run_apis (e : env) (cs : list api_call) : M unit :=
  match cs with
  | [] => ret tt
  | c :: rest => (run_api e c ;; run_apis e rest)%M
  end.

(** A board whose engine cannot be created: [emote_init] returns null. *)
Definition no_engine_env : env :=
  {| LEDC_BACKLIGHT_SUPPORTED := LEDC_BACKLIGHT_SUPPORTED mock_env;
     LCD_MIRROR_X_Y := LCD_MIRROR_X_Y mock_env;
     CONFIG_APP_EMOTE_PARTITION_LABEL := CONFIG_APP_EMOTE_PARTITION_LABEL mock_env;
     APP_NETWORK_EVENT_QR_DISPLAY := APP_NETWORK_EVENT_QR_DISPLAY mock_env;
     esp_board_device_get_handle_ret := esp_board_device_get_handle_ret mock_env;
     esp_board_device_get_config_ret := esp_board_device_get_config_ret mock_env;
     esp_board_periph_get_config_ret := esp_board_periph_get_config_ret mock_env;
     display_lcd_panel_handle := display_lcd_panel_handle mock_env;
     display_lcd_io_handle := display_lcd_io_handle mock_env;
     lcd_width := lcd_width mock_env;
     lcd_height := lcd_height mock_env;
     lcd_touch_touch_handle := lcd_touch_touch_handle mock_env;
     ledc_duty_resolution := ledc_duty_resolution mock_env;
     ledc_set_duty_ret := ledc_set_duty_ret mock_env;
     ledc_update_duty_ret := ledc_update_duty_ret mock_env;
     heap_caps_calloc_ret := heap_caps_calloc_ret mock_env;
     esp_lcd_panel_disp_on_off_ret := esp_lcd_panel_disp_on_off_ret mock_env;
     esp_lcd_panel_io_register_event_callbacks_ret :=
       esp_lcd_panel_io_register_event_callbacks_ret mock_env;
     emote_init_ret := NULL;
     emote_is_initialized_ret := false;
     emote_gfx_emote_handle := NULL;
     emote_get_obj_by_name_ret := fun _ => NULL;
     gfx_obj_get_pos_y := 0;
     emote_set_event_msg_ret := fun _ _ _ => ESP_ERR_INVALID_ARG |}.



(** What holds of every world a client can reach from boot: the only
    registration there can be is the QR one, a pushed QR payload and a
    live QR registration exclude each other, and before a successful
    init there is neither. *)
Definition qr_invariant (e : env) (w : world) : Prop :=
  (qr_pushes w + List.length (event_loop w) <= 1)%nat /\
  (forall r, In r (event_loop w) -> r = qr_registration e) /\
  (initialized (s_display_data w) = false -> event_loop w = [] /\ qr_pushes w = O).

(* ================================================================== *)
(** * The console front end ([agent_console.c]) *)
(* ================================================================== *)

Module Console.

(** Which console the build selects.  With [CONFIG_ESP_CONSOLE_UART_*]
    the file passes an undeclared variable to
    [esp_console_new_repl_uart], so that build is not modelled. *)
Inductive console_config :=
| CONFIG_ESP_CONSOLE_USB_SERIAL_JTAG
| CONFIG_ESP_CONSOLE_OTHER.

Definition CMD_BUFFER_SIZE : Z := 3072.

Inductive call :=
| call_fflush_stdout
| call_fsync_stdout
| call_esp_console_new_repl_usb_serial_jtag (max_cmdline_length : Z)
| call_usb_serial_jtag_driver_uninstall
| call_usb_serial_jtag_driver_install (tx_buffer_size rx_buffer_size : Z)
| call_xTaskCreate_start_console_task (stack_depth priority : Z)
| call_esp_rmaker_common_register_commands
| call_esp_console_cmd_register (cmd : handle)
| call_esp_console_start_repl (repl : handle)
| call_vTaskDelete.

Record env := {
  config : console_config;
  esp_console_new_repl_ret : esp_err_t;
  (* the REPL stored through the out parameter on success *)
  esp_console_new_repl_handle : handle;
  usb_serial_jtag_driver_uninstall_ret : esp_err_t;
  usb_serial_jtag_driver_install_ret : esp_err_t;
  esp_console_cmd_register_ret : handle -> esp_err_t
}.

(** [static esp_console_repl_t *g_repl] and the calls made so far. *)
Record world := {
  g_repl : handle;
  trace : list call
}.

Definition boot_world : world := {| g_repl := NULL; trace := [] |}.

(** A computation returns a value and a world, or the firmware aborts
    ([ESP_ERROR_CHECK] on an error). *)
Definition M (A : Type) : Type := world -> option (A * world).

Definition ret {A} (a : A) : M A := fun w => Some (a, w).

Definition bind {A B} (m : M A) (k : A -> M B) : M B :=
  fun w => match m w with
           | Some (a, w') => k a w'
           | None => None
           end.

Definition emit (c : call) : M unit :=
  fun w => Some (tt, {| g_repl := g_repl w; trace := trace w ++ [c] |}).

Definition get_repl : M handle := fun w => Some (g_repl w, w).

Definition set_repl (h : handle) : M unit :=
  fun w => Some (tt, {| g_repl := h; trace := trace w |}).

(** [ESP_ERROR_CHECK(x)]: abort unless [x] is [ESP_OK]. *)
Definition ESP_ERROR_CHECK (x : M esp_err_t) : M unit :=
  bind x (fun r => if r =? ESP_OK then ret tt else fun _ => None).

Definition ESP_RETURN_ON_ERROR (x : M esp_err_t) (k : M esp_err_t) : M esp_err_t :=
  bind x (fun r => if r =? ESP_OK then k else ret r).

Section Functions.
Variable e : env.

Definition start_console_task : M unit :=
  bind get_repl (fun r =>
  bind (emit (call_esp_console_start_repl r)) (fun _ =>
  emit call_vTaskDelete)).

Definition console_reconfigure_peripheral : M unit :=
  bind (emit call_fflush_stdout) (fun _ =>
  bind (emit call_fsync_stdout) (fun _ =>
  match config e with
  | CONFIG_ESP_CONSOLE_USB_SERIAL_JTAG =>
      bind (ESP_ERROR_CHECK
              (bind (emit call_usb_serial_jtag_driver_uninstall)
                    (fun _ => ret (usb_serial_jtag_driver_uninstall_ret e)))) (fun _ =>
      ESP_ERROR_CHECK
        (bind (emit (call_usb_serial_jtag_driver_install 256 CMD_BUFFER_SIZE))
              (fun _ => ret (usb_serial_jtag_driver_install_ret e))))
  | CONFIG_ESP_CONSOLE_OTHER => ret tt
  end)).

Definition agent_console_register_default_commands : M esp_err_t :=
  bind get_repl (fun r =>
  if is_null r then ret ESP_ERR_INVALID_STATE
  else bind (emit call_esp_rmaker_common_register_commands) (fun _ => ret ESP_OK)).

(** [esp_console_new_repl_usb_serial_jtag(&hw_config, &repl_config, &g_repl)]:
    on success the new REPL is stored in [g_repl]; on failure [g_repl],
    null at that point, stays null. *)
Definition esp_console_new_repl_usb_serial_jtag (max_cmdline_length : Z) : M esp_err_t :=
  bind (emit (call_esp_console_new_repl_usb_serial_jtag max_cmdline_length)) (fun _ =>
  if esp_console_new_repl_ret e =? ESP_OK
  then bind (set_repl (esp_console_new_repl_handle e)) (fun _ => ret ESP_OK)
  else ret (esp_console_new_repl_ret e)).

Definition agent_console_init : M esp_err_t :=
  bind get_repl (fun r =>
  if negb (is_null r) then ret ESP_ERR_INVALID_STATE
  else
    let create :=
      match config e with
      | CONFIG_ESP_CONSOLE_USB_SERIAL_JTAG => esp_console_new_repl_usb_serial_jtag 3072
      | CONFIG_ESP_CONSOLE_OTHER => ret ESP_OK
      end in
    ESP_RETURN_ON_ERROR create (
    bind console_reconfigure_peripheral (fun _ =>
    bind (emit (call_xTaskCreate_start_console_task 4096 1)) (fun _ =>
    ESP_RETURN_ON_ERROR agent_console_register_default_commands (
    ret ESP_OK))))).

Definition agent_console_register_command (cmd : handle) : M esp_err_t :=
  bind get_repl (fun r =>
  if is_null r then ret ESP_ERR_INVALID_STATE
  else bind (emit (call_esp_console_cmd_register cmd))
            (fun _ => ret (esp_console_cmd_register_ret e cmd))).

End Functions.

(** A board on which every console step succeeds. *)
Definition mock_env : env :=
  {| config := CONFIG_ESP_CONSOLE_USB_SERIAL_JTAG;
     esp_console_new_repl_ret := ESP_OK;
     esp_console_new_repl_handle := 21;
     usb_serial_jtag_driver_uninstall_ret := ESP_OK;
     usb_serial_jtag_driver_install_ret := ESP_OK;
     esp_console_cmd_register_ret := fun _ => ESP_OK |}.

(** The world after a successful [agent_console_init] from [w]. *)
Definition console_ready (e : env) (w : world) : world :=
  {| g_repl := esp_console_new_repl_handle e;
     trace := trace w ++
              [ call_esp_console_new_repl_usb_serial_jtag 3072;
                call_fflush_stdout;
                call_fsync_stdout;
                call_usb_serial_jtag_driver_uninstall;
                call_usb_serial_jtag_driver_install 256 CMD_BUFFER_SIZE;
                call_xTaskCreate_start_console_task 4096 1;
                call_esp_rmaker_common_register_commands ] |}.

(** Everything [agent_console_init] needs in order to return [ESP_OK]. *)
Definition console_can_start (e : env) (w : world) : Prop :=
  g_repl w = NULL /\
  config e = CONFIG_ESP_CONSOLE_USB_SERIAL_JTAG /\
  esp_console_new_repl_ret e = ESP_OK /\
  usb_serial_jtag_driver_uninstall_ret e = ESP_OK /\
  usb_serial_jtag_driver_install_ret e = ESP_OK /\
  esp_console_new_repl_handle e <> NULL.

End Console.

(* ================================================================== *)
(** * Facts about the C library model *)
(* ================================================================== *)

Module LibcFacts.

Lemma code_zero_iff (c : ascii) : code c = 0 <-> c = NUL.
Proof.
  unfold code, NUL. split.
  - intros H. rewrite <- (ascii_N_embedding c).
    replace (N_of_ascii c) with 0%N by lia. reflexivity.
  - intros ->. reflexivity.
Qed.

Lemma tolower_zero_iff (z : Z) : tolower z = 0 <-> z = 0.
Proof.
  unfold tolower.
  destruct (65 <=? z) eqn:H1; destruct (z <=? 90) eqn:H2; simpl; lia.
Qed.

Lemma strlen_nul_free (s : string) :
  nul_free s = true -> strlen s = String.length s.
Proof.
  induction s as [|c t IH]; simpl; [reflexivity|].
  destruct (Ascii.eqb c NUL); simpl; [discriminate|].
  intros H. now rewrite IH.
Qed.

(** On a candidate without inner NUL, [strncasecmp] over the
    candidate's length answers 0 exactly when the input begins with
    the candidate, case ignored. *)
Lemma strncasecmp_zero_iff (cand : string) :
  nul_free cand = true ->
  forall input,
    strncasecmp input cand (strlen cand) = 0 <->
    begins_with_ignoring_case input cand.
Proof.
  unfold begins_with_ignoring_case.
  induction cand as [|c t IH]; intros Hnf input.
  - simpl. split; [intros _|reflexivity].
    split; [lia|]. now destruct input.
  - simpl in Hnf. destruct (Ascii.eqb c NUL) eqn:Hc; [discriminate|].
    simpl in Hnf. specialize (IH Hnf).
    apply Ascii.eqb_neq in Hc.
    assert (Hc2 : tolower (code c) <> 0).
    { rewrite tolower_zero_iff, code_zero_iff. exact Hc. }
    cbn [strlen]. replace (Ascii.eqb c NUL) with false
      by (symmetry; now apply Ascii.eqb_neq).
    cbn [strncasecmp deref next String.length].
    destruct input as [|a u]; cbn [deref next String.length].
    + replace (tolower (code NUL)) with 0 by reflexivity.
      destruct (0 - tolower (code c) =? 0) eqn:Hd; [lia|].
      simpl. split; [lia|intros [H _]; lia].
    + destruct (tolower (code a) - tolower (code c) =? 0) eqn:Hd.
      * apply Z.eqb_eq in Hd.
        replace (tolower (code c) =? 0) with false by (symmetry; now apply Z.eqb_neq).
        simpl negb. cbn [orb]. rewrite IH.
        cbn [substring]. unfold lower_codes. cbn [list_ascii_of_string map].
        split.
        -- intros [Hl He]. split; [lia|]. f_equal; [lia|exact He].
        -- intros [Hl He]. split; [lia|]. now inversion He.
      * apply Z.eqb_neq in Hd. simpl negb. cbn [orb].
        split; [lia|].
        intros [_ He]. cbn [substring] in He. unfold lower_codes in He.
        cbn [list_ascii_of_string map] in He. inversion He. lia.
Qed.

End LibcFacts.

(* ================================================================== *)
(** * Emotion matching *)
(* ================================================================== *)

Lemma valid_emotions_nul_free :
  Forall (fun c => nul_free c = true) valid_emotions.
Proof. repeat constructor. Qed.

Lemma emotion_matches_iff (input cand : string) :
  nul_free cand = true ->
  emotion_matches input cand = true <-> begins_with_ignoring_case input cand.
Proof.
  intros H. unfold emotion_matches. rewrite Z.eqb_eq.
  now apply LibcFacts.strncasecmp_zero_iff.
Qed.

(** The loop of [app_display_set_emotion] stops at the first candidate
    that matches and posts it; it posts nothing when none does. *)
Lemma set_emotion_from_find (h : handle) (input : string) (cands : list string) (w : world) :
  set_emotion_from h input cands w =
  match find (emotion_matches input) cands with
  | Some c => (ESP_OK, with_calls w [call_emote_set_anim_emoji h c])
  | None => (ESP_ERR_INVALID_ARG, w)
  end.
Proof.
  induction cands as [|c rest IH]; simpl; [reflexivity|].
  destruct (emotion_matches input c); [reflexivity|exact IH].
Qed.

Lemma is_emotion_valid_from_find (input : string) (cands : list string) :
  is_emotion_valid_from input cands =
  match find (emotion_matches input) cands with Some _ => true | None => false end.
Proof.
  induction cands as [|c rest IH]; simpl; [reflexivity|].
  destruct (emotion_matches input c); [reflexivity|exact IH].
Qed.

Lemma find_first_match (input : string) (cands : list string) :
  Forall (fun c => nul_free c = true) cands ->
  match find (emotion_matches input) cands with
  | Some c => first_match input cands c
  | None => forall c, In c cands -> ~ begins_with_ignoring_case input c
  end.
Proof.
  induction 1 as [|c rest Hc Hrest IH]; simpl.
  - intros c [].
  - destruct (emotion_matches input c) eqn:Hm.
    + exists [], rest. split; [reflexivity|]. split.
      * now apply emotion_matches_iff.
      * intros b [].
    + assert (Hn : ~ begins_with_ignoring_case input c).
      { intros Hb. apply emotion_matches_iff in Hb; congruence. }
      destruct (find (emotion_matches input) rest) as [c'|].
      * destruct IH as (before & after & -> & Hb & Hno).
        exists (c :: before), after. split; [reflexivity|]. split; [exact Hb|].
        intros b [<-|Hin]; [exact Hn|now apply Hno].
      * intros b [<-|Hin]; [exact Hn|now apply IH].
Qed.

(** The first match is unique. *)
Lemma first_match_unique (input : string) (cands : list string) (c c' : string) :
  first_match input cands c -> first_match input cands c' -> c = c'.
Proof.
  revert c c'. induction cands as [|x rest IH]; intros c c'
    (b1 & a1 & E1 & H1 & N1) (b2 & a2 & E2 & H2 & N2).
  - destruct b1; discriminate.
  - destruct b1 as [|y b1]; destruct b2 as [|z b2]; simpl in *.
    + congruence.
    + injection E1 as Ex _. injection E2 as Ez _.
      exfalso. apply (N2 z); [now left|]. now rewrite <- Ez, Ex.
    + injection E1 as Ey _. injection E2 as Ex _.
      exfalso. apply (N1 y); [now left|]. now rewrite <- Ey, Ex.
    + injection E1 as _ E1. injection E2 as _ E2.
      apply IH.
      * exists b1, a1. split; [exact E1|]. split; [exact H1|].
        intros b Hb. apply N1. now right.
      * exists b2, a2. split; [exact E2|]. split; [exact H2|].
        intros b Hb. apply N2. now right.
Qed.

Lemma set_emotion_initialized (w : world) (input : string) :
  initialized (s_display_data w) = true ->
  app_display_set_emotion input w =
  match find (emotion_matches input) valid_emotions with
  | Some c =>
      (ESP_OK, with_calls w [call_emote_set_anim_emoji (emote_handle (s_display_data w)) c])
  | None => (ESP_ERR_INVALID_ARG, w)
  end.
Proof.
  intros Hinit. unfold app_display_set_emotion, bind, get_data.
  rewrite Hinit. cbn [negb]. apply set_emotion_from_find.
Qed.

(** C1: when initialized, [app_display_set_emotion] succeeds exactly on
    the inputs that begin, case ignored, with some name of the emotion
    table (so are at least as long as it); the name posted to the engine
    is the first such candidate in declaration order; without a match
    the call fails with [ESP_ERR_INVALID_ARG] and changes nothing.
    "Happy" and "SAD!!" succeed, "ha" fails. *)
Theorem set_emotion_prefix_match (w : world) (input : string) :
  initialized (s_display_data w) = true ->
  (fst (app_display_set_emotion input w) = ESP_OK <->
   exists c, In c valid_emotions /\ begins_with_ignoring_case input c) /\
  ((exists c, In c valid_emotions /\ begins_with_ignoring_case input c) ->
   exists c, first_match input valid_emotions c) /\
  (forall c, first_match input valid_emotions c ->
   app_display_set_emotion input w =
   (ESP_OK, with_calls w [call_emote_set_anim_emoji (emote_handle (s_display_data w)) c])) /\
  ((forall c, In c valid_emotions -> ~ begins_with_ignoring_case input c) ->
   app_display_set_emotion input w = (ESP_ERR_INVALID_ARG, w)) /\
  app_display_set_emotion "Happy" w =
    (ESP_OK, with_calls w [call_emote_set_anim_emoji (emote_handle (s_display_data w)) "happy"]) /\
  app_display_set_emotion "SAD!!" w =
    (ESP_OK, with_calls w [call_emote_set_anim_emoji (emote_handle (s_display_data w)) "sad"]) /\
  app_display_set_emotion "ha" w = (ESP_ERR_INVALID_ARG, w).
Proof.
  intros Hinit.
  pose proof (find_first_match input valid_emotions valid_emotions_nul_free) as Hfind.
  rewrite !(set_emotion_initialized w _ Hinit).
  destruct (find (emotion_matches input) valid_emotions) as [c|] eqn:Hf.
  - assert (Hin : In c valid_emotions /\ begins_with_ignoring_case input c).
    { destruct Hfind as (b & a & E & Hb & _). split; [|exact Hb].
      rewrite E. apply in_or_app. right. now left. }
    repeat apply conj.
    + intros _. now exists c.
    + intros _. reflexivity.
    + intros _. now exists c.
    + intros c' Hc'. now rewrite (first_match_unique _ _ _ _ Hc' Hfind).
    + intros Hno. destruct Hin as [Hi Hb]. now destruct (Hno c Hi).
    + reflexivity.
    + reflexivity.
    + reflexivity.
  - repeat apply conj.
    + discriminate.
    + intros (c & Hi & Hb). now destruct (Hfind c Hi).
    + intros (c & Hi & Hb). now destruct (Hfind c Hi).
    + intros c (b & a & E & Hb & _). exfalso. apply (Hfind c); [|exact Hb].
      rewrite E. apply in_or_app. right. now left.
    + reflexivity.
    + reflexivity.
    + reflexivity.
    + reflexivity.
Qed.

Lemma set_emotion_prefix_match_witness :
  fst (app_display_set_emotion "SAD!!" ready_world) = ESP_OK <->
  exists c, In c valid_emotions /\ begins_with_ignoring_case "SAD!!" c.
Proof.
  apply (set_emotion_prefix_match ready_world "SAD!!"); reflexivity.
Defined.

(* ================================================================== *)
(** * The guard on [initialized] *)
(* ================================================================== *)

(** C5: before [app_display_init] has completed, each mutating public
    operation returns [ESP_ERR_INVALID_STATE] for every argument and
    leaves the whole world as it was: no call is made, no field moves. *)
Theorem mutators_before_init (e : env) (w : world) :
  initialized (s_display_data w) = false ->
  (forall text_type text arg,
      app_display_set_text e text_type text arg w = (ESP_ERR_INVALID_STATE, w)) /\
  (forall emotion,
      app_display_set_emotion emotion w = (ESP_ERR_INVALID_STATE, w)) /\
  (forall new_state arg,
      app_display_system_state_changed e new_state arg w = (ESP_ERR_INVALID_STATE, w)) /\
  (forall event message,
      app_display_send_event event message w = (ESP_ERR_INVALID_STATE, w)).
Proof.
  intros Hun. repeat apply conj; intros.
  - unfold app_display_set_text, bind, get_data. now rewrite Hun.
  - unfold app_display_set_emotion, bind, get_data. now rewrite Hun.
  - unfold app_display_system_state_changed, bind, get_data. now rewrite Hun.
  - unfold app_display_send_event, bind, get_data. now rewrite Hun.
Qed.

Lemma mutators_before_init_witness :
  app_display_set_text mock_env APP_DEVICE_TEXT_TYPE_SYSTEM (Some "hi"%string) NULL boot_world
  = (ESP_ERR_INVALID_STATE, boot_world).
Proof.
  apply (mutators_before_init mock_env boot_world); reflexivity.
Defined.

(* ================================================================== *)
(** * Text channels *)
(* ================================================================== *)

(** C9: when initialized, assistant text that is null or empty posts
    nothing and returns [ESP_OK]; any non-empty assistant text, "hello"
    among them, posts exactly one speak message carrying it. *)
Theorem set_text_assistant (e : env) (w : world) (arg : handle) :
  initialized (s_display_data w) = true ->
  app_display_set_text e APP_DEVICE_TEXT_TYPE_ASSISTANT None arg w = (ESP_OK, w) /\
  app_display_set_text e APP_DEVICE_TEXT_TYPE_ASSISTANT (Some ""%string) arg w = (ESP_OK, w) /\
  (forall t, strlen t = O ->
     app_display_set_text e APP_DEVICE_TEXT_TYPE_ASSISTANT (Some t) arg w = (ESP_OK, w)) /\
  (forall t, strlen t <> O ->
     app_display_set_text e APP_DEVICE_TEXT_TYPE_ASSISTANT (Some t) arg w =
     (ESP_OK, with_calls w [call_emote_set_event_msg (emote_handle (s_display_data w))
                                                     EMOTE_MGR_EVT_SPEAK (Some t)])) /\
  app_display_set_text e APP_DEVICE_TEXT_TYPE_ASSISTANT (Some "hello"%string) arg w =
    (ESP_OK, with_calls w [call_emote_set_event_msg (emote_handle (s_display_data w))
                                                    EMOTE_MGR_EVT_SPEAK (Some "hello"%string)]) /\
  List.length (filter (is_event_msg EMOTE_MGR_EVT_SPEAK)
            (trace (snd (app_display_set_text e APP_DEVICE_TEXT_TYPE_ASSISTANT
                                              (Some "hello"%string) arg w)))) =
    S (List.length (filter (is_event_msg EMOTE_MGR_EVT_SPEAK) (trace w))).
Proof.
  intros Hinit.
  assert (Hgen : forall t, strlen t <> O ->
     app_display_set_text e APP_DEVICE_TEXT_TYPE_ASSISTANT (Some t) arg w =
     (ESP_OK, with_calls w [call_emote_set_event_msg (emote_handle (s_display_data w))
                                                     EMOTE_MGR_EVT_SPEAK (Some t)])).
  { intros t Ht. unfold app_display_set_text, bind, get_data. rewrite Hinit. cbn [negb].
    destruct (strlen t) as [|n] eqn:El; [congruence|]. reflexivity. }
  repeat apply conj.
  - unfold app_display_set_text, bind, get_data. now rewrite Hinit.
  - unfold app_display_set_text, bind, get_data. now rewrite Hinit.
  - intros t Ht. unfold app_display_set_text, bind, get_data. rewrite Hinit, Ht. reflexivity.
  - exact Hgen.
  - apply Hgen. discriminate.
  - rewrite Hgen by discriminate. cbn [snd with_calls trace].
    rewrite filter_app, List.length_app. cbn. lia.
Qed.

Lemma set_text_assistant_witness :
  app_display_set_text mock_env APP_DEVICE_TEXT_TYPE_ASSISTANT (Some ""%string) NULL ready_world
  = (ESP_OK, ready_world).
Proof.
  apply (set_text_assistant mock_env ready_world NULL); reflexivity.
Defined.

(** C10: when initialized, system text is forwarded to the engine as it
    is, null and empty included, in exactly one system message, and the
    call returns [ESP_OK] whatever the engine answers. *)
Theorem set_text_system_unconditional (e : env) (w : world)
        (text : option string) (arg : handle) :
  initialized (s_display_data w) = true ->
  app_display_set_text e APP_DEVICE_TEXT_TYPE_SYSTEM text arg w =
  (ESP_OK, with_calls w [call_emote_set_event_msg (emote_handle (s_display_data w))
                                                  EMOTE_MGR_EVT_SYS text]).
Proof.
  intros Hinit. unfold app_display_set_text, bind, get_data.
  now rewrite Hinit.
Qed.

Lemma set_text_system_unconditional_witness :
  app_display_set_text mock_env APP_DEVICE_TEXT_TYPE_SYSTEM None NULL ready_world =
  (ESP_OK, with_calls ready_world
             [call_emote_set_event_msg (emote_handle (s_display_data ready_world))
                                       EMOTE_MGR_EVT_SYS None]).
Proof.
  apply (set_text_system_unconditional mock_env ready_world None NULL); reflexivity.
Defined.

(* ================================================================== *)
(** * System state changes *)
(* ================================================================== *)

(** C6: when initialized, a change to listening posts the idle emotion
    and then one listen message, in that order and nothing else; a
    change to sleep posts the sleepy emotion; a state outside the known
    ones returns [ESP_ERR_INVALID_ARG] and changes nothing. *)
Theorem system_state_changed_spec (e : env) (w : world) (arg : handle) :
  initialized (s_display_data w) = true ->
  let h := emote_handle (s_display_data w) in
  app_display_system_state_changed e APP_DEVICE_SYSTEM_STATE_LISTENING arg w =
    (emote_set_event_msg_ret e h EMOTE_MGR_EVT_LISTEN None,
     with_calls w [call_emote_set_anim_emoji h "idle";
                   call_emote_set_event_msg h EMOTE_MGR_EVT_LISTEN None]) /\
  app_display_system_state_changed e APP_DEVICE_SYSTEM_STATE_SLEEP arg w =
    (ESP_OK, with_calls w [call_emote_set_anim_emoji h "sleepy"]) /\
  (forall v,
     app_display_system_state_changed e (APP_DEVICE_SYSTEM_STATE_other v) arg w =
     (ESP_ERR_INVALID_ARG, w)).
Proof.
  intros Hinit h. repeat apply conj.
  - unfold app_display_system_state_changed, bind at 1, get_data.
    rewrite Hinit. cbn [negb]. unfold bind at 1.
    rewrite (set_emotion_initialized w _ Hinit).
    cbn. unfold with_calls. cbn. rewrite <- app_assoc. reflexivity.
  - unfold app_display_system_state_changed, bind at 1, get_data.
    rewrite Hinit. cbn [negb]. unfold bind at 1.
    rewrite (set_emotion_initialized w _ Hinit). reflexivity.
  - intros v. unfold app_display_system_state_changed, bind, get_data.
    now rewrite Hinit.
Qed.

Lemma system_state_changed_spec_witness :
  app_display_system_state_changed mock_env APP_DEVICE_SYSTEM_STATE_SLEEP NULL ready_world =
  (ESP_OK, with_calls ready_world
             [call_emote_set_anim_emoji (emote_handle (s_display_data ready_world)) "sleepy"]).
Proof.
  apply (system_state_changed_spec mock_env ready_world NULL); reflexivity.
Defined.

(* ================================================================== *)
(** * Validity check against the same table *)
(* ================================================================== *)

(** C7: [app_display_is_emotion_valid] answers true exactly when
    [app_display_set_emotion], run initialized on the same string,
    succeeds; it leaves the world it runs in untouched and answers the
    same whether or not that world is initialized; on a string that
    begins with no known name, "zzz" for one, the check is false and the
    setter fails with [ESP_ERR_INVALID_ARG], the world unchanged. *)
Theorem is_emotion_valid_same_rule (w w' : world) (input : string) :
  initialized (s_display_data w') = true ->
  snd (app_display_is_emotion_valid input w) = w /\
  (fst (app_display_is_emotion_valid input w) = true <->
   fst (app_display_set_emotion input w') = ESP_OK) /\
  ((forall c, In c valid_emotions -> ~ begins_with_ignoring_case input c) ->
   fst (app_display_is_emotion_valid input w) = false /\
   app_display_set_emotion input w' = (ESP_ERR_INVALID_ARG, w')) /\
  fst (app_display_is_emotion_valid "zzz" w) = false /\
  app_display_set_emotion "zzz" w' = (ESP_ERR_INVALID_ARG, w').
Proof.
  intros Hinit.
  pose proof (find_first_match input valid_emotions valid_emotions_nul_free) as Hfind.
  rewrite !(set_emotion_initialized w' _ Hinit).
  unfold app_display_is_emotion_valid, ret. cbn [fst snd].
  rewrite !is_emotion_valid_from_find.
  split; [reflexivity|]. split; [|split; [|split; reflexivity]].
  - destruct (find (emotion_matches input) valid_emotions); cbn [fst];
      split; intros H; (reflexivity || discriminate H).
  - intros Hno.
    destruct (find (emotion_matches input) valid_emotions) as [c|]; [|now split].
    destruct Hfind as (b & a & E & Hb & _). exfalso. apply (Hno c); [|exact Hb].
    rewrite E. apply in_or_app. right. now left.
Qed.

Lemma is_emotion_valid_same_rule_witness :
  fst (app_display_is_emotion_valid "Winking at you" boot_world) = true <->
  fst (app_display_set_emotion "Winking at you" ready_world) = ESP_OK.
Proof.
  apply (is_emotion_valid_same_rule boot_world ready_world "Winking at you"); reflexivity.
Defined.

(* ================================================================== *)
(** * Initialization *)
(* ================================================================== *)

(** Split on the tests met in the goal, oldest first. *)
Ltac case_tests :=
  repeat match goal with
         | |- context [if ?b then _ else _] =>
             lazymatch b with
             | context [if _ then _ else _] => fail
             | _ => destruct b eqn:?
             end
         end.

Lemma is_null_NULL : is_null NULL = true.
Proof. reflexivity. Qed.

(** Decide the first undecided atom of a test. *)
Ltac destruct_atom b :=
  lazymatch b with
  | negb ?x => destruct_atom x
  | andb ?x ?y => first [destruct_atom x | destruct_atom y]
  | true => fail
  | false => fail
  | context [if _ then _ else _] => fail
  | _ => destruct b eqn:?
  end.

(** Evaluate the record projections, then decide the tests one by one,
    reusing the outcome of a test that was already decided. *)
Ltac run_tests :=
  repeat (cbn [negb andb fst snd trace s_display_data event_loop initialized
               panel_handle io_handle emote_handle touch_handle gfx_handle h_res v_res];
          rewrite ?is_null_NULL;
          repeat match goal with
                 | H : ?b = _ |- context [?b] => rewrite H
                 end;
          try match goal with
              | |- context [if ?b then _ else _] => destruct_atom b
              end).

Ltac trace_norm :=
  unfold with_calls; cbn [trace s_display_data event_loop fst snd app];
  rewrite <- ?app_assoc; cbn [app]; rewrite ?app_nil_r.

(** [set_lcd_backlight] only makes calls, the same from every world. *)
Lemma set_lcd_backlight_frame (e : env) (b : Z) (w : world) :
  set_lcd_backlight e b w =
  (fst (set_lcd_backlight e b boot_world), with_calls w (set_lcd_backlight_calls e b)).
Proof.
  unfold set_lcd_backlight_calls, set_lcd_backlight, ESP_RETURN_ON_ERROR,
    esp_board_device_get_handle, esp_board_device_get_config,
    esp_board_periph_get_config, ledc_set_duty, ledc_update_duty, bind, emit, ret.
  cbn [fst snd trace boot_world s_display_data event_loop app].
  case_tests; trace_norm; reflexivity.
Qed.

Lemma init_display_ok (e : env) (w : world) :
  bring_up_succeeds e ->
  init_display e w =
  (ESP_OK, {| s_display_data := bring_up_data e (s_display_data w);
              event_loop := event_loop w;
              trace := trace w ++ bring_up_calls e |}).
Proof.
  intros (H1 & H2 & H3 & H4).
  unfold init_display, ESP_RETURN_ON_ERROR, esp_board_device_get_handle,
    esp_board_device_get_config, esp_lcd_panel_disp_on_off.
  unfold bind at 1. unfold bind at 1. cbn [emit ret]. rewrite H1. cbn [Z.eqb ESP_OK].
  unfold bind at 1. unfold bind at 1. cbn [emit ret]. rewrite H2. cbn [Z.eqb ESP_OK].
  unfold bind at 1. unfold bind at 1. cbn [emit ret]. rewrite H3. cbn [Z.eqb ESP_OK].
  unfold bring_up_calls, bring_up_data, when, bind, emit, ret, get_data, put_data.
  cbn [fst snd trace s_display_data event_loop].
  rewrite H4. cbn [Z.eqb ESP_OK].
  destruct (is_null (heap_caps_calloc_ret e)); cbn [negb];
    destruct (LEDC_BACKLIGHT_SUPPORTED e); destruct (LCD_MIRROR_X_Y e);
    rewrite ?set_lcd_backlight_frame; trace_norm; reflexivity.
Qed.

Lemma find_idle : find (emotion_matches DISP_EMOTE_IDLE) valid_emotions = Some DISP_EMOTE_IDLE.
Proof. reflexivity. Qed.

Lemma init_already_initialized (e : env) (w : world) :
  initialized (s_display_data w) = true ->
  app_display_init e w = (ESP_OK, w).
Proof.
  intros H. unfold app_display_init, bind, get_data. now rewrite H.
Qed.

(** A failing [init_display] ends [app_display_init] with its error. *)
Lemma init_bring_up_fails (e : env) (w w1 : world) (r : esp_err_t) :
  initialized (s_display_data w) = false ->
  init_display e w = (r, w1) ->
  r <> ESP_OK ->
  app_display_init e w = (r, w1).
Proof.
  intros Hun Hid Hr.
  unfold app_display_init, bind at 1, get_data. rewrite Hun.
  unfold ESP_RETURN_ON_ERROR, bind at 1. rewrite Hid.
  apply Z.eqb_neq in Hr. now rewrite Hr.
Qed.

(** After a successful [init_display], [app_display_init] always runs
    to its end and returns [ESP_OK]. *)
Lemma init_after_bring_up (e : env) (w w1 : world) :
  initialized (s_display_data w) = false ->
  init_display e w = (ESP_OK, w1) ->
  app_display_init e w = (ESP_OK, initialized_world e w1).
Proof.
  intros Hun Hid.
  unfold app_display_init, bind at 1, get_data. rewrite Hun.
  unfold ESP_RETURN_ON_ERROR, bind at 1. rewrite Hid. cbn [Z.eqb ESP_OK].
  unfold initialized_world, engine_setup_calls, init_emote_calls,
    engine_dependent_calls, touch_dependent_calls, engine_handle, emote_get_gfx_handle.
  unfold init_emote, set_emote_handle, set_gfx_handle, set_initialized,
    esp_lcd_panel_io_register_event_callbacks, emote_set_event_msg,
    emote_get_obj_by_name, emote_get_gfx_handle, esp_event_handler_register,
    set_event_loop, app_display_set_emotion, when, bind, emit, ret, get_data, put_data.
  run_tests;
    rewrite set_emotion_from_find, find_idle;
    trace_norm; reflexivity.
Qed.

(** From an uninitialized world, on a board whose bring-up succeeds,
    [app_display_init] returns [ESP_OK] and ends in this world. *)
Lemma init_ok (e : env) (w : world) :
  initialized (s_display_data w) = false ->
  bring_up_succeeds e ->
  app_display_init e w =
  (ESP_OK,
   initialized_world e {| s_display_data := bring_up_data e (s_display_data w);
                          event_loop := event_loop w;
                          trace := trace w ++ bring_up_calls e |}).
Proof.
  intros Hun Hok. apply init_after_bring_up; [exact Hun|].
  now apply init_display_ok.
Qed.

(** C8: once [app_display_init] has returned [ESP_OK], the display is
    marked initialized, and calling it again returns [ESP_OK] at once:
    the world is the same afterwards, so no bring-up call was made and
    no field of the display state moved. *)
Theorem init_twice (e : env) (w0 w1 : world) :
  app_display_init e w0 = (ESP_OK, w1) ->
  initialized (s_display_data w1) = true /\
  app_display_init e w1 = (ESP_OK, w1) /\
  trace (snd (app_display_init e w1)) = trace w1.
Proof.
  intros H.
  assert (Hinit : initialized (s_display_data w1) = true).
  { destruct (initialized (s_display_data w0)) eqn:H0.
    - rewrite (init_already_initialized e w0 H0) in H. now injection H as <-.
    - destruct (init_display e w0) as [r w'] eqn:Hid.
      destruct (Z.eq_dec r ESP_OK) as [->|Hr].
      + rewrite (init_after_bring_up e w0 w' H0 Hid) in H. now injection H as <-.
      + rewrite (init_bring_up_fails e w0 w' r H0 Hid Hr) in H. congruence. }
  rewrite (init_already_initialized e w1 Hinit). auto.
Qed.

Lemma init_twice_witness :
  app_display_init mock_env ready_world = (ESP_OK, ready_world).
Proof.
  refine (proj1 (proj2 (init_twice mock_env boot_world ready_world _))).
  vm_compute. reflexivity.
Defined.

(* ================================================================== *)
(** * Initialization without touch or without the engine *)
(* ================================================================== *)

Lemma filter_none {A} (P : A -> bool) (l : list A) :
  Forall (fun c => P c = false) l -> filter P l = [].
Proof.
  induction 1 as [|c l Hc _ IH]; cbn; [reflexivity|]. now rewrite Hc.
Qed.

Lemma filter_all {A} (P : A -> bool) (l : list A) :
  Forall (fun c => P c = false) l -> filter (fun c => negb (P c)) l = l.
Proof.
  induction 1 as [|c l Hc _ IH]; cbn; [reflexivity|]. now rewrite Hc, IH.
Qed.

Lemma set_lcd_backlight_calls_no_touch (e : env) (b : Z) :
  Forall not_touch_configure (set_lcd_backlight_calls e b).
Proof.
  unfold set_lcd_backlight_calls, set_lcd_backlight, ESP_RETURN_ON_ERROR,
    esp_board_device_get_handle, esp_board_device_get_config,
    esp_board_periph_get_config, ledc_set_duty, ledc_update_duty, bind, emit, ret.
  cbn [fst snd trace boot_world s_display_data event_loop app].
  case_tests; cbn [fst snd trace app]; repeat constructor.
Qed.

Lemma bring_up_calls_no_touch (e : env) :
  Forall not_touch_configure (bring_up_calls e).
Proof.
  unfold bring_up_calls.
  rewrite !Forall_app. repeat apply conj;
    try (repeat constructor; fail).
  - destruct (is_null (heap_caps_calloc_ret e)); repeat constructor.
  - destruct (LEDC_BACKLIGHT_SUPPORTED e);
      [apply set_lcd_backlight_calls_no_touch|constructor].
  - destruct (LCD_MIRROR_X_Y e); repeat constructor.
Qed.

Lemma init_emote_calls_no_touch (e : env) (hres vres : Z) :
  Forall not_touch_configure (init_emote_calls e hres vres).
Proof.
  unfold init_emote_calls.
  destruct (is_null (emote_init_ret e)); [|destruct (emote_is_initialized_ret e)];
    repeat constructor.
Qed.

Lemma engine_dependent_calls_no_touch (e : env) (io h : handle) :
  Forall not_touch_configure (engine_dependent_calls e io h).
Proof.
  unfold engine_dependent_calls. apply Forall_app. split.
  - destruct (negb (is_null io) && negb (is_null h)); repeat constructor.
  - destruct (negb (is_null h)); repeat constructor.
Qed.

Lemma touch_dependent_calls_filtered (gfx t : handle) :
  filter (fun c => negb (is_touch_configure c)) (touch_dependent_calls gfx t) = [].
Proof.
  unfold touch_dependent_calls.
  now destruct (negb (is_null t) && negb (is_null gfx)).
Qed.

Lemma bring_up_succeeds_with_touch_handle (e : env) (t : handle) :
  bring_up_succeeds e -> bring_up_succeeds (with_touch_handle e t).
Proof. intros H. exact H. Qed.

(** The calls of a whole successful [app_display_init], from its
    closed form. *)
Lemma init_ok_trace (e : env) (w : world) :
  initialized (s_display_data w) = false ->
  bring_up_succeeds e ->
  trace (snd (app_display_init e w)) =
  trace w ++ bring_up_calls e
          ++ engine_setup_calls e (bring_up_data e (s_display_data w)).
Proof.
  intros Hun Hok. rewrite (init_ok e w Hun Hok).
  cbn [snd initialized_world trace s_display_data]. now rewrite app_assoc.
Qed.

(** A failing lookup of the touch device ends [app_display_init] with
    the lookup's error, after the three lookups and nothing else. *)
Lemma init_touch_lookup_fails (e : env) (w : world) (r : esp_err_t) :
  initialized (s_display_data w) = false ->
  esp_board_device_get_handle_ret e "display_lcd" = ESP_OK ->
  esp_board_device_get_config_ret e "display_lcd" = ESP_OK ->
  esp_board_device_get_handle_ret e "lcd_touch" = r ->
  r <> ESP_OK ->
  app_display_init e w =
  (r, with_calls w [ call_esp_board_device_get_handle "display_lcd";
                     call_esp_board_device_get_config "display_lcd";
                     call_esp_board_device_get_handle "lcd_touch" ]).
Proof.
  intros Hun H1 H2 H3 Hr.
  apply init_bring_up_fails; [exact Hun| |exact Hr].
  unfold init_display, ESP_RETURN_ON_ERROR, esp_board_device_get_handle,
    esp_board_device_get_config.
  unfold bind at 1. unfold bind at 1. cbn [emit ret]. rewrite H1. cbn [Z.eqb ESP_OK].
  unfold bind at 1. unfold bind at 1. cbn [emit ret]. rewrite H2. cbn [Z.eqb ESP_OK].
  unfold bind at 1. unfold bind at 1. cbn [emit ret]. rewrite H3.
  apply Z.eqb_neq in Hr. rewrite Hr. unfold ret. trace_norm. reflexivity.
Qed.

(** C3: when the touch handle is absent, that is, the touch device is
    found but carries a null touch handle, and the bring-up succeeds,
    [app_display_init] returns [ESP_OK] and marks the display
    initialized; it never calls [gfx_touch_configure]; all its other
    calls, and the registrations it leaves, are those it makes with a
    touch handle [t] present.  With no engine handle it succeeds too and
    makes none of the engine-dependent calls.  Only a failing lookup of
    the touch device, a step of the bring-up, aborts init with its
    error. *)
Theorem init_without_touch_handle (e : env) (w : world) (t : handle) :
  initialized (s_display_data w) = false ->
  bring_up_succeeds e ->
  let e0 := with_touch_handle e NULL in
  let et := with_touch_handle e t in
  fst (app_display_init e0 w) = ESP_OK /\
  initialized (s_display_data (snd (app_display_init e0 w))) = true /\
  (exists cs, trace (snd (app_display_init e0 w)) = trace w ++ cs /\
              filter is_touch_configure cs = []) /\
  (exists cs, trace (snd (app_display_init et w)) = trace w ++ cs /\
              trace (snd (app_display_init e0 w)) =
              trace w ++ filter (fun c => negb (is_touch_configure c)) cs) /\
  event_loop (snd (app_display_init e0 w)) = event_loop (snd (app_display_init et w)) /\
  (engine_handle e = NULL ->
   fst (app_display_init e w) = ESP_OK /\
   trace (snd (app_display_init e w)) =
   trace w ++ bring_up_calls e
           ++ init_emote_calls e (lcd_width e mod 2 ^ 32) (lcd_height e mod 2 ^ 32)
           ++ [ call_esp_event_handler_register APP_NETWORK_EVENT
                  (APP_NETWORK_EVENT_QR_DISPLAY e) display_event_handler_fn;
                call_emote_set_anim_emoji NULL DISP_EMOTE_IDLE ]) /\
  (forall e' r,
     esp_board_device_get_handle_ret e' "display_lcd" = ESP_OK ->
     esp_board_device_get_config_ret e' "display_lcd" = ESP_OK ->
     esp_board_device_get_handle_ret e' "lcd_touch" = r ->
     r <> ESP_OK ->
     fst (app_display_init e' w) = r /\
     initialized (s_display_data (snd (app_display_init e' w))) = false).
Proof.
  intros Hun Hok e0 et.
  pose proof (bring_up_succeeds_with_touch_handle e NULL Hok) as Hok0.
  pose proof (bring_up_succeeds_with_touch_handle e t Hok) as Hokt.
  fold e0 in Hok0. fold et in Hokt.
  pose proof (init_ok_trace e0 w Hun Hok0) as T0.
  pose proof (init_ok_trace et w Hun Hokt) as Tt.
  assert (Esetup0 :
    engine_setup_calls e0 (bring_up_data e0 (s_display_data w)) =
    init_emote_calls e (lcd_width e mod 2 ^ 32) (lcd_height e mod 2 ^ 32)
    ++ engine_dependent_calls e (display_lcd_io_handle e) (engine_handle e)
    ++ [] ++
    [ call_esp_event_handler_register APP_NETWORK_EVENT
        (APP_NETWORK_EVENT_QR_DISPLAY e) display_event_handler_fn;
      call_emote_set_anim_emoji (engine_handle e) DISP_EMOTE_IDLE ]) by reflexivity.
  assert (Esetupt :
    engine_setup_calls et (bring_up_data et (s_display_data w)) =
    init_emote_calls e (lcd_width e mod 2 ^ 32) (lcd_height e mod 2 ^ 32)
    ++ engine_dependent_calls e (display_lcd_io_handle e) (engine_handle e)
    ++ touch_dependent_calls (emote_get_gfx_handle e (engine_handle e)) t ++
    [ call_esp_event_handler_register APP_NETWORK_EVENT
        (APP_NETWORK_EVENT_QR_DISPLAY e) display_event_handler_fn;
      call_emote_set_anim_emoji (engine_handle e) DISP_EMOTE_IDLE ]) by reflexivity.
  change (bring_up_calls e0) with (bring_up_calls e) in T0.
  change (bring_up_calls et) with (bring_up_calls e) in Tt.
  rewrite Esetup0 in T0. rewrite Esetupt in Tt.
  pose proof (bring_up_calls_no_touch e) as N1.
  pose proof (init_emote_calls_no_touch e (lcd_width e mod 2 ^ 32) (lcd_height e mod 2 ^ 32)) as N2.
  pose proof (engine_dependent_calls_no_touch e (display_lcd_io_handle e) (engine_handle e)) as N3.
  split; [now rewrite (init_ok e0 w Hun Hok0)|].
  split; [now rewrite (init_ok e0 w Hun Hok0)|].
  split.
  { eexists. split; [exact T0|].
    rewrite !filter_app, (filter_none _ _ N1), (filter_none _ _ N2), (filter_none _ _ N3).
    reflexivity. }
  split.
  { eexists. split; [exact Tt|]. rewrite T0.
    rewrite !filter_app, (filter_all _ _ N1), (filter_all _ _ N2), (filter_all _ _ N3).
    rewrite touch_dependent_calls_filtered. reflexivity. }
  split.
  { rewrite (init_ok e0 w Hun Hok0), (init_ok et w Hun Hokt). reflexivity. }
  split.
  { intros Hnull. split; [now rewrite (init_ok e w Hun Hok)|].
    rewrite (init_ok_trace e w Hun Hok).
    unfold engine_setup_calls, engine_dependent_calls, touch_dependent_calls,
      emote_get_gfx_handle.
    rewrite Hnull. rewrite is_null_NULL, !andb_false_r. reflexivity. }
  intros e' r H1 H2 H3 Hr.
  rewrite (init_touch_lookup_fails e' w r Hun H1 H2 H3 Hr).
  split; [reflexivity|exact Hun].
Qed.

Lemma init_without_touch_handle_witness :
  fst (app_display_init (with_touch_handle mock_env NULL) boot_world) = ESP_OK.
Proof.
  refine (proj1 (init_without_touch_handle mock_env boot_world 13 _ _)).
  - reflexivity.
  - repeat split.
Defined.

(** On a board where the touch device is not registered, the lookup of
    the device fails during the bring-up: [app_display_init] returns
    that error and the display is not initialized. *)
Lemma init_fails_without_touch_device :
  fst (app_display_init no_touch_device_env boot_world) = ESP_ERR_NOT_FOUND /\
  fst (app_display_init no_touch_device_env boot_world) <> ESP_OK /\
  initialized (s_display_data (snd (app_display_init no_touch_device_env boot_world))) = false /\
  fst (app_display_set_emotion DISP_EMOTE_IDLE
         (snd (app_display_init no_touch_device_env boot_world))) = ESP_ERR_INVALID_STATE.
Proof.
  vm_compute. repeat split. discriminate.
Qed.

(* ================================================================== *)
(** * Event handling *)
(* ================================================================== *)

Lemma filter_matches_unregistered (base : esp_event_base_t) (id : Z) (l : list registration) :
  filter (reg_matches base id) (filter (fun r => negb (reg_matches base id r)) l) = [].
Proof.
  induction l as [|r l IH]; cbn; [reflexivity|].
  destruct (reg_matches base id r) eqn:Hm; cbn; [exact IH|].
  now rewrite Hm.
Qed.

(** The QR branch of the handler, run once on an initialized display. *)
Lemma display_event_handler_qr (e : env) (w : world) (arg : handle) (data : option string) :
  initialized (s_display_data w) = true ->
  display_event_handler e arg APP_NETWORK_EVENT (APP_NETWORK_EVENT_QR_DISPLAY e) data w =
  (tt, {| s_display_data := s_display_data w;
          event_loop :=
            filter (fun r => negb (reg_matches APP_NETWORK_EVENT
                                               (APP_NETWORK_EVENT_QR_DISPLAY e) r))
                   (event_loop w);
          trace := trace w ++ qr_handling_calls e (emote_handle (s_display_data w)) data |}).
Proof.
  intros Hinit.
  unfold display_event_handler. cbn [esp_event_base_eqb andb].
  rewrite Z.eqb_refl.
  unfold qr_handling_calls, app_display_set_text, change_emotion_visibility,
    emote_set_qrcode_data, esp_event_handler_unregister, emote_set_event_msg,
    emote_get_obj_by_name, set_event_loop, when, bind, emit, ret, get_data.
  rewrite Hinit. run_tests; trace_norm; reflexivity.
Qed.

(** The wifi branches of the handler, when the handler is called. *)
Lemma display_event_handler_wifi (e : env) (w : world) (arg : handle) (data : option string) :
  initialized (s_display_data w) = true ->
  display_event_handler e arg WIFI_EVENT WIFI_EVENT_STA_DISCONNECTED data w =
    (tt, with_calls w
           [ call_emote_set_event_msg (emote_handle (s_display_data w)) EMOTE_MGR_EVT_SYS
                                      (Some "WiFi connecting..."%string);
             call_emote_set_anim_emoji (emote_handle (s_display_data w)) DISP_EMOTE_IDLE ]) /\
  display_event_handler e arg WIFI_EVENT WIFI_EVENT_STA_CONNECTED data w =
    (tt, with_calls w
           [ call_emote_set_event_msg (emote_handle (s_display_data w)) EMOTE_MGR_EVT_SYS
                                      (Some "WiFi connected"%string);
             call_emote_set_anim_emoji (emote_handle (s_display_data w)) DISP_EMOTE_IDLE ]).
Proof.
  intros Hinit.
  unfold display_event_handler. cbn [esp_event_base_eqb andb Z.eqb
    WIFI_EVENT_STA_DISCONNECTED WIFI_EVENT_STA_CONNECTED Pos.eqb].
  unfold app_display_set_text, app_display_set_emotion, emote_set_event_msg,
    bind, emit, ret, get_data.
  cbn [fst snd trace s_display_data event_loop]. rewrite Hinit. cbn [negb].
  cbn [fst snd trace s_display_data event_loop]. rewrite Hinit. cbn [negb].
  rewrite !set_emotion_from_find, find_idle.
  split; trace_norm; reflexivity.
Qed.


(** C4: with the handler registered once for the QR-display event on an
    initialized display, the first delivery of that event runs the QR
    logic once (status prompt, hiding of the eye animation when the
    engine has it, push of the payload) and ends by unregistering the
    handler; a second delivery changes nothing, so after both the prompt
    was posted and the payload pushed exactly once. *)
Theorem qr_event_handled_once (e : env) (w : world) (data1 data2 : option string) :
  initialized (s_display_data w) = true ->
  filter (reg_matches APP_NETWORK_EVENT (APP_NETWORK_EVENT_QR_DISPLAY e)) (event_loop w)
    = [qr_registration e] ->
  let qr := APP_NETWORK_EVENT_QR_DISPLAY e in
  let h := emote_handle (s_display_data w) in
  let w1 := snd (esp_event_deliver e APP_NETWORK_EVENT qr data1 w) in
  let w2 := snd (esp_event_deliver e APP_NETWORK_EVENT qr data2 w1) in
  trace w1 = trace w ++ qr_handling_calls e h data1 /\
  (exists cs, qr_handling_calls e h data1 =
              cs ++ [call_esp_event_handler_unregister APP_NETWORK_EVENT qr
                                                        display_event_handler_fn]) /\
  filter (reg_matches APP_NETWORK_EVENT qr) (event_loop w1) = [] /\
  w2 = w1 /\
  List.length (filter is_qrcode_push (trace w2)) =
    S (List.length (filter is_qrcode_push (trace w))) /\
  List.length (filter (is_event_msg EMOTE_MGR_EVT_SYS) (trace w2)) =
    S (List.length (filter (is_event_msg EMOTE_MGR_EVT_SYS) (trace w))).
Proof.
  intros Hinit Hreg qr h w1 w2. subst qr h.
  set (qr := APP_NETWORK_EVENT_QR_DISPLAY e) in *.
  set (h := emote_handle (s_display_data w)) in *.
  assert (E1 : w1 =
    {| s_display_data := s_display_data w;
       event_loop := filter (fun r => negb (reg_matches APP_NETWORK_EVENT qr r)) (event_loop w);
       trace := trace w ++ qr_handling_calls e h data1 |}).
  { unfold w1, esp_event_deliver. rewrite Hreg.
    cbn [run_handlers run_handler qr_registration reg_handler].
    unfold bind, qr. rewrite (display_event_handler_qr e w NULL data1 Hinit).
    reflexivity. }
  assert (E2 : w2 = w1).
  { unfold w2, esp_event_deliver. rewrite E1 at 1. cbn [event_loop].
    rewrite filter_matches_unregistered. reflexivity. }
  split; [now rewrite E1|].
  split.
  { unfold qr_handling_calls.
    eexists. rewrite app_assoc.
    change [call_emote_set_qrcode_data h data1;
            call_esp_event_handler_unregister APP_NETWORK_EVENT
              (APP_NETWORK_EVENT_QR_DISPLAY e) display_event_handler_fn]
      with ([call_emote_set_qrcode_data h data1] ++
            [call_esp_event_handler_unregister APP_NETWORK_EVENT
              (APP_NETWORK_EVENT_QR_DISPLAY e) display_event_handler_fn]).
    rewrite app_assoc. reflexivity. }
  split; [rewrite E1; cbn [event_loop]; apply filter_matches_unregistered|].
  split; [exact E2|].
  rewrite E2, E1. cbn [trace]. unfold qr_handling_calls.
  rewrite !filter_app, !List.length_app.
  split.
  - destruct (is_null h); [|destruct (is_null (emote_get_obj_by_name_ret e "eye_anim"))];
      cbn; lia.
  - destruct (is_null h); [|destruct (is_null (emote_get_obj_by_name_ret e "eye_anim"))];
      cbn; lia.
Qed.

Lemma qr_event_handled_once_witness :
  let w1 := snd (esp_event_deliver mock_env APP_NETWORK_EVENT 0 (Some "WIFI:S:net;;"%string)
                                   ready_world) in
  snd (esp_event_deliver mock_env APP_NETWORK_EVENT 0 (Some "WIFI:S:net;;"%string) w1) = w1.
Proof.
  refine (proj1 (proj2 (proj2 (proj2
            (qr_event_handled_once mock_env ready_world (Some "WIFI:S:net;;"%string)
                                   (Some "WIFI:S:net;;"%string) _ _))))).
  - reflexivity.
  - reflexivity.
Defined.

(* ================================================================== *)
(** * What [app_display_init] subscribes to *)
(* ================================================================== *)

Lemma keeps_loop_ret {A} (a : A) : keeps_loop (ret a).
Proof. intros w. reflexivity. Qed.

Lemma keeps_loop_emit (c : call) : keeps_loop (emit c).
Proof. intros w. reflexivity. Qed.

Lemma keeps_loop_get_data : keeps_loop get_data.
Proof. intros w. reflexivity. Qed.

Lemma keeps_loop_put_data (d : app_display_data_t) : keeps_loop (put_data d).
Proof. intros w. reflexivity. Qed.

Lemma keeps_loop_bind {A B} (m : M A) (k : A -> M B) :
  keeps_loop m -> (forall a, keeps_loop (k a)) -> keeps_loop (bind m k).
Proof.
  intros Hm Hk w. unfold bind. specialize (Hm w).
  destruct (m w) as [a w']. cbn [snd] in Hm. now rewrite Hk.
Qed.

Lemma keeps_loop_when (b : bool) (m : M unit) :
  keeps_loop m -> keeps_loop (when b m).
Proof. intros Hm. destruct b; [exact Hm|apply keeps_loop_ret]. Qed.

Lemma keeps_loop_ESP_RETURN_ON_ERROR {A} (x : M esp_err_t) (err : esp_err_t -> A) (k : M A) :
  keeps_loop x -> keeps_loop k -> keeps_loop (ESP_RETURN_ON_ERROR x err k).
Proof.
  intros Hx Hk. unfold ESP_RETURN_ON_ERROR. apply keeps_loop_bind; [exact Hx|].
  intros r. destruct (r =? ESP_OK); [exact Hk|apply keeps_loop_ret].
Qed.

Create HintDb keeps_loop.
#[local] Hint Resolve keeps_loop_ret keeps_loop_emit keeps_loop_get_data keeps_loop_put_data
  keeps_loop_bind keeps_loop_when keeps_loop_ESP_RETURN_ON_ERROR : keeps_loop.

Lemma set_lcd_backlight_keeps_loop (e : env) (b : Z) : keeps_loop (set_lcd_backlight e b).
Proof.
  unfold set_lcd_backlight, esp_board_device_get_handle, esp_board_device_get_config,
    esp_board_periph_get_config, ledc_set_duty, ledc_update_duty.
  auto 20 with keeps_loop.
Qed.

(** [init_display] registers nothing, whatever its outcome. *)
Lemma init_display_keeps_loop (e : env) : keeps_loop (init_display e).
Proof.
  pose proof (set_lcd_backlight_keeps_loop e 100).
  unfold init_display, esp_board_device_get_handle, esp_board_device_get_config,
    esp_lcd_panel_disp_on_off.
  auto 30 with keeps_loop.
Qed.

Lemma init_display_event_loop (e : env) (w : world) :
  event_loop (snd (init_display e w)) = event_loop w.
Proof. apply init_display_keeps_loop. Qed.

(** The only registration [app_display_init] can add is the one for the
    QR-display event. *)
Lemma init_event_loop (e : env) (w : world) :
  event_loop (snd (app_display_init e w)) = event_loop w \/
  event_loop (snd (app_display_init e w)) = event_loop w ++ [qr_registration e].
Proof.
  destruct (initialized (s_display_data w)) eqn:H0.
  - left. now rewrite (init_already_initialized e w H0).
  - pose proof (init_display_event_loop e w) as Hl.
    destruct (init_display e w) as [r w'] eqn:Hid. cbn [snd] in Hl.
    destruct (Z.eq_dec r ESP_OK) as [->|Hr].
    + rewrite (init_after_bring_up e w w' H0 Hid).
      cbn [snd initialized_world event_loop]. rewrite Hl.
      destruct (existsb _ _); [now left|now right].
    + left. now rewrite (init_bring_up_fails e w w' r H0 Hid Hr).
Qed.

Lemma deliver_without_handler (e : env) (w : world) (base : esp_event_base_t)
      (id : Z) (data : option string) :
  filter (reg_matches base id) (event_loop w) = [] ->
  esp_event_deliver e base id data w = (tt, w).
Proof.
  intros H. unfold esp_event_deliver. now rewrite H.
Qed.

(** C2, evaluated on the code: the handler has the two wifi branches
    and, called directly on the initialized mock board, posts
    "WiFi connecting..." or "WiFi connected" and the idle emotion; but
    [app_display_init] registers it for the QR-display event only.  So
    a wifi station event delivered after init reaches no handler of
    this file: the world is unchanged and the status text stays
    "Initializing...".  This holds on every board, booted from scratch. *)
Theorem wifi_events_reach_no_handler :
  fst (app_display_init mock_env boot_world) = ESP_OK /\
  current_emotion (trace ready_world) = Some "idle"%string /\
  event_loop ready_world = [qr_registration mock_env] /\
  esp_event_deliver mock_env WIFI_EVENT WIFI_EVENT_STA_DISCONNECTED None ready_world
    = (tt, ready_world) /\
  esp_event_deliver mock_env WIFI_EVENT WIFI_EVENT_STA_CONNECTED None ready_world
    = (tt, ready_world) /\
  status_text (trace (snd (esp_event_deliver mock_env WIFI_EVENT WIFI_EVENT_STA_DISCONNECTED
                                             None ready_world)))
    = Some (Some "Initializing..."%string) /\
  status_text (trace (snd (display_event_handler mock_env NULL WIFI_EVENT
                                                 WIFI_EVENT_STA_DISCONNECTED None ready_world)))
    = Some (Some "WiFi connecting..."%string) /\
  status_text (trace (snd (display_event_handler mock_env NULL WIFI_EVENT
                                                 WIFI_EVENT_STA_CONNECTED None ready_world)))
    = Some (Some "WiFi connected"%string) /\
  (forall (e : env) (id : Z) (data : option string),
     let w := snd (app_display_init e boot_world) in
     esp_event_deliver e WIFI_EVENT id data w = (tt, w)).
Proof.
  do 8 (split; [vm_compute; reflexivity|]).
  intros e id data w. apply deliver_without_handler.
  destruct (init_event_loop e boot_world) as [H|H]; unfold w; rewrite H; reflexivity.
Qed.

(* ================================================================== *)
(** * Frame properties: what a computation leaves alone *)
(* ================================================================== *)

Section Frame.
Context {V : Type} (view : world -> V).

Lemma preserves_ret {A} (a : A) : preserves view (ret a).
Proof. intros w. reflexivity. Qed.

Lemma preserves_get_data : preserves view get_data.
Proof. intros w. reflexivity. Qed.

Lemma preserves_bind {A B} (m : M A) (k : A -> M B) :
  preserves view m -> (forall a, preserves view (k a)) -> preserves view (bind m k).
Proof.
  intros Hm Hk w. unfold bind. specialize (Hm w).
  destruct (m w) as [a w']. cbn [snd] in Hm. now rewrite Hk.
Qed.

Lemma preserves_when (b : bool) (m : M unit) :
  preserves view m -> preserves view (when b m).
Proof. intros Hm. destruct b; [exact Hm|apply preserves_ret]. Qed.

Lemma preserves_ESP_RETURN_ON_ERROR {A} (x : M esp_err_t) (err : esp_err_t -> A) (k : M A) :
  preserves view x -> preserves view k -> preserves view (ESP_RETURN_ON_ERROR x err k).
Proof.
  intros Hx Hk. unfold ESP_RETURN_ON_ERROR. apply preserves_bind; [exact Hx|].
  intros r. destruct (r =? ESP_OK); [exact Hk|apply preserves_ret].
Qed.

End Frame.

Lemma emit_preserves_data (c : call) : preserves s_display_data (emit c).
Proof. intros w. reflexivity. Qed.

Lemma emit_preserves_loop (c : call) : preserves event_loop (emit c).
Proof. intros w. reflexivity. Qed.

Lemma emit_preserves_calls (P : call -> bool) (c : call) :
  P c = false -> preserves (fun w => filter P (trace w)) (emit c).
Proof.
  intros Hc w. cbn [emit snd trace]. rewrite filter_app. cbn [filter].
  rewrite Hc. apply app_nil_r.
Qed.

Lemma put_data_preserves_loop (d : app_display_data_t) : preserves event_loop (put_data d).
Proof. intros w. reflexivity. Qed.

Lemma put_data_preserves_calls (P : call -> bool) (d : app_display_data_t) :
  preserves (fun w => filter P (trace w)) (put_data d).
Proof. intros w. reflexivity. Qed.

Create HintDb frame.
#[local] Hint Resolve preserves_ret preserves_get_data preserves_bind preserves_when
  preserves_ESP_RETURN_ON_ERROR emit_preserves_data emit_preserves_loop
  emit_preserves_calls put_data_preserves_loop put_data_preserves_calls : frame.
#[local] Hint Extern 1 (_ = false) => reflexivity : frame.
#[local] Hint Extern 3 (preserves _ (if ?b then _ else _)) => destruct b : frame.
#[local] Hint Extern 3 (preserves _ (match ?x with _ => _ end)) => destruct x : frame.

Ltac unfold_collaborators :=
  unfold esp_board_device_get_handle, esp_board_device_get_config,
    esp_board_periph_get_config, ledc_set_duty, ledc_update_duty,
    esp_lcd_panel_disp_on_off, esp_lcd_panel_io_register_event_callbacks,
    emote_set_event_msg, emote_get_obj_by_name, emote_set_anim_emoji,
    emote_set_qrcode_data.

(** The emotion loop only ever posts [emote_set_anim_emoji]. *)
Lemma set_emotion_from_preserves {V} (view : world -> V) (h : handle) (input : string)
      (cands : list string) :
  (forall c, preserves view (emit (call_emote_set_anim_emoji h c))) ->
  preserves view (set_emotion_from h input cands).
Proof.
  intros He. induction cands as [|c rest IH]; cbn [set_emotion_from].
  - apply preserves_ret.
  - destruct (emotion_matches input c); [|exact IH].
    unfold emote_set_anim_emoji. apply preserves_bind; [apply He|].
    intros _. apply preserves_ret.
Qed.

Lemma set_emotion_preserves {V} (view : world -> V) (input : string) :
  (forall h c, preserves view (emit (call_emote_set_anim_emoji h c))) ->
  preserves view (app_display_set_emotion input).
Proof.
  intros He. unfold app_display_set_emotion.
  apply preserves_bind; [apply preserves_get_data|]. intros d.
  destruct (negb (initialized d)); [apply preserves_ret|].
  apply set_emotion_from_preserves. apply He.
Qed.

Lemma set_text_preserves {V} (view : world -> V) (e : env)
      (ty : app_device_text_type_t) (text : option string) (arg : handle) :
  (forall h evt m, preserves view (emit (call_emote_set_event_msg h evt m))) ->
  preserves view (app_display_set_text e ty text arg).
Proof.
  intros He. unfold app_display_set_text, emote_set_event_msg.
  auto 12 with frame.
Qed.

Lemma system_state_changed_preserves {V} (view : world -> V) (e : env)
      (st : app_device_system_state_t) (arg : handle) :
  (forall h evt m, preserves view (emit (call_emote_set_event_msg h evt m))) ->
  (forall h c, preserves view (emit (call_emote_set_anim_emoji h c))) ->
  preserves view (app_display_system_state_changed e st arg).
Proof.
  intros He Ha. pose proof (set_emotion_preserves view DISP_EMOTE_IDLE Ha).
  pose proof (set_emotion_preserves view DISP_EMOTE_SLEEPY Ha).
  unfold app_display_system_state_changed, emote_set_event_msg.
  auto 12 with frame.
Qed.

Lemma send_event_unchanged (event message : option string) (w : world) :
  snd (app_display_send_event event message w) = w.
Proof.
  unfold app_display_send_event, bind, get_data, ret.
  now destruct (negb (initialized (s_display_data w))).
Qed.

(* ================================================================== *)
(** * The outcome of [init_display] and of a failed init *)
(* ================================================================== *)

Lemma first_bring_up_error_ok_iff (e : env) :
  first_bring_up_error e = ESP_OK <-> bring_up_succeeds e.
Proof.
  unfold first_bring_up_error, bring_up_succeeds.
  destruct (esp_board_device_get_handle_ret e "display_lcd" =? ESP_OK) eqn:H1;
    [apply Z.eqb_eq in H1|apply Z.eqb_neq in H1; cbn [negb]; tauto].
  destruct (esp_board_device_get_config_ret e "display_lcd" =? ESP_OK) eqn:H2;
    [apply Z.eqb_eq in H2|apply Z.eqb_neq in H2; cbn [negb]; tauto].
  destruct (esp_board_device_get_handle_ret e "lcd_touch" =? ESP_OK) eqn:H3;
    [apply Z.eqb_eq in H3|apply Z.eqb_neq in H3; cbn [negb]; tauto].
  cbn [negb]. tauto.
Qed.

Ltac trace_open :=
  unfold with_calls; cbn [trace s_display_data event_loop fst snd app];
  rewrite <- ?app_assoc; cbn [app].

(** A failing [init_display] returns the error of its first failing
    step and has only made calls. *)
Lemma init_display_fails (e : env) (w : world) :
  first_bring_up_error e <> ESP_OK ->
  exists cs, init_display e w = (first_bring_up_error e, with_calls w cs).
Proof.
  unfold first_bring_up_error, init_display, ESP_RETURN_ON_ERROR.
  unfold_collaborators.
  unfold bind at 1. unfold bind at 1. cbn [emit ret].
  destruct (esp_board_device_get_handle_ret e "display_lcd" =? ESP_OK) eqn:H1;
    cbn [negb]; [|intros _; eexists; unfold ret; trace_open; reflexivity].
  unfold bind at 1. unfold bind at 1. cbn [emit ret].
  destruct (esp_board_device_get_config_ret e "display_lcd" =? ESP_OK) eqn:H2;
    cbn [negb]; [|intros _; eexists; unfold ret; trace_open; reflexivity].
  unfold bind at 1. unfold bind at 1. cbn [emit ret].
  destruct (esp_board_device_get_handle_ret e "lcd_touch" =? ESP_OK) eqn:H3;
    cbn [negb]; [|intros _; eexists; unfold ret; trace_open; reflexivity].
  intros Hbad. apply Z.eqb_neq in Hbad.
  unfold when, bind, emit, ret. rewrite Hbad.
  destruct (negb (is_null (heap_caps_calloc_ret e)));
    eexists; trace_open; reflexivity.
Qed.

(** [init_display] returns the error of its first failing step and
    writes [s_display_data] only when no step fails. *)
Lemma init_display_outcome (e : env) (w : world) :
  fst (init_display e w) = first_bring_up_error e /\
  s_display_data (snd (init_display e w)) =
    (if first_bring_up_error e =? ESP_OK
     then bring_up_data e (s_display_data w)
     else s_display_data w).
Proof.
  destruct (Z.eq_dec (first_bring_up_error e) ESP_OK) as [Hok|Hbad].
  - rewrite Hok. apply first_bring_up_error_ok_iff in Hok.
    rewrite (init_display_ok e w Hok). split; reflexivity.
  - destruct (init_display_fails e w Hbad) as [cs ->].
    apply Z.eqb_neq in Hbad. rewrite Hbad. split; reflexivity.
Qed.

(** [init_display] makes no call to the engine. *)
Lemma init_display_preserves_calls (P : call -> bool) (e : env) :
  (forall c, is_engine_call c = false -> P c = false) ->
  preserves (fun w => filter P (trace w)) (init_display e).
Proof.
  intros HP.
  assert (Hc : forall c, is_engine_call c = false ->
                         preserves (fun w => filter P (trace w)) (emit c)).
  { intros c Hc. apply emit_preserves_calls. now apply HP. }
  assert (Hb : preserves (fun w => filter P (trace w)) (set_lcd_backlight e 100)).
  { unfold set_lcd_backlight. unfold_collaborators.
    repeat (apply preserves_ESP_RETURN_ON_ERROR;
            [apply preserves_bind; [now apply Hc|intros _; apply preserves_ret]|]).
    apply preserves_ret. }
  unfold init_display. unfold_collaborators.
  repeat first
    [ apply preserves_ret
    | apply preserves_get_data
    | apply put_data_preserves_calls
    | exact Hb
    | (apply Hc; reflexivity)
    | apply preserves_when
    | apply preserves_ESP_RETURN_ON_ERROR
    | apply preserves_bind
    | intros ? ].
Qed.

Lemma init_display_no_engine_call (e : env) :
  preserves (fun w => filter is_engine_call (trace w)) (init_display e).
Proof. apply init_display_preserves_calls. auto. Qed.

Lemma engine_call_of_qrcode_push (c : call) :
  is_engine_call c = false -> is_qrcode_push c = false.
Proof. now destruct c. Qed.

Lemma filter_weaken {A} (P Q : A -> bool) (l : list A) :
  (forall c, P c = false -> Q c = false) ->
  filter P l = [] -> filter Q l = [].
Proof.
  intros HPQ. induction l as [|c l IH]; cbn; [reflexivity|].
  destruct (P c) eqn:Hc; [discriminate|]. rewrite (HPQ c Hc). exact IH.
Qed.

Lemma init_returns_first_error (e : env) (w : world) :
  initialized (s_display_data w) = false ->
  fst (app_display_init e w) = first_bring_up_error e.
Proof.
  intros Hun.
  destruct (init_display_outcome e w) as [Hr _].
  destruct (init_display e w) as [r w1] eqn:Hid. cbn [fst] in Hr. subst r.
  destruct (Z.eq_dec (first_bring_up_error e) ESP_OK) as [Hok|Hbad].
  - rewrite Hok in Hid. rewrite (init_after_bring_up e w w1 Hun Hid). now rewrite Hok.
  - now rewrite (init_bring_up_fails e w w1 _ Hun Hid Hbad).
Qed.

(** X1: from an uninitialized display, [app_display_init] returns the
    error of the first failing abortable step of the bring-up (the two
    panel lookups, the touch lookup, the panel power-on), and [ESP_OK]
    exactly when all four succeed, whatever the heap, the backlight,
    the engine and the callback registration answer. *)
Theorem init_result (e : env) (w : world) :
  initialized (s_display_data w) = false ->
  fst (app_display_init e w) = first_bring_up_error e /\
  (fst (app_display_init e w) = ESP_OK <-> bring_up_succeeds e).
Proof.
  intros Hun. pose proof (init_returns_first_error e w Hun) as H.
  split; [exact H|]. rewrite H. apply first_bring_up_error_ok_iff.
Qed.

Lemma init_result_witness :
  fst (app_display_init no_touch_device_env boot_world) =
  first_bring_up_error no_touch_device_env.
Proof.
  refine (proj1 (init_result no_touch_device_env boot_world _)). reflexivity.
Defined.

(** X2: an [app_display_init] that fails leaves the display state and
    the event registrations exactly as they were (so the display stays
    uninitialized and init can be tried again), and has made no call to
    the engine. *)
Theorem failed_init_changes_nothing (e : env) (w : world) :
  initialized (s_display_data w) = false ->
  fst (app_display_init e w) <> ESP_OK ->
  s_display_data (snd (app_display_init e w)) = s_display_data w /\
  event_loop (snd (app_display_init e w)) = event_loop w /\
  filter is_engine_call (trace (snd (app_display_init e w))) =
    filter is_engine_call (trace w).
Proof.
  intros Hun Hfail.
  rewrite (init_returns_first_error e w Hun) in Hfail.
  destruct (init_display_outcome e w) as [Hr1 Hd].
  pose proof (init_display_event_loop e w) as Hl.
  pose proof (init_display_no_engine_call e w) as Hc.
  destruct (init_display e w) as [r w1] eqn:Hid. cbn [fst snd] in *. subst r.
  rewrite (init_bring_up_fails e w w1 _ Hun Hid Hfail). cbn [snd].
  apply Z.eqb_neq in Hfail. rewrite Hfail in Hd. auto.
Qed.

Lemma failed_init_changes_nothing_witness :
  s_display_data (snd (app_display_init no_touch_device_env boot_world)) =
  s_display_data boot_world.
Proof.
  refine (proj1 (failed_init_changes_nothing no_touch_device_env boot_world _ _)).
  - reflexivity.
  - vm_compute. discriminate.
Defined.

(* ================================================================== *)
(** * Invariants over arbitrary sequences of calls *)
(* ================================================================== *)

Lemma unregister_preserves_data (base : esp_event_base_t) (id : Z) (f : event_handler) :
  preserves s_display_data (esp_event_handler_unregister base id f).
Proof. intros w. reflexivity. Qed.

Lemma change_emotion_visibility_preserves {V} (view : world -> V) (e : env)
      (h : handle) (visible : bool) :
  (forall h' n, preserves view (emit (call_emote_get_obj_by_name h' n))) ->
  (forall o v, preserves view (emit (call_gfx_obj_set_visible o v))) ->
  preserves view (change_emotion_visibility e h visible).
Proof.
  intros Hg Hv. unfold change_emotion_visibility, emote_get_obj_by_name.
  destruct (is_null h); [apply preserves_ret|].
  apply preserves_bind.
  - apply preserves_bind; [apply Hg|intros _; apply preserves_ret].
  - intros obj. apply preserves_when. apply Hv.
Qed.

Lemma display_event_handler_preserves_data (e : env) (arg : handle)
      (base : esp_event_base_t) (id : Z) (data : option string) :
  preserves s_display_data (display_event_handler e arg base id data).
Proof.
  pose proof (fun ty text a =>
    set_text_preserves s_display_data e ty text a
      (fun h evt m => emit_preserves_data _)) as Htext.
  pose proof (fun input =>
    set_emotion_preserves s_display_data input (fun h c => emit_preserves_data _)) as Hemo.
  pose proof (fun h v =>
    change_emotion_visibility_preserves s_display_data e h v
      (fun _ _ => emit_preserves_data _) (fun _ _ => emit_preserves_data _)) as Hvis.
  pose proof unregister_preserves_data as Hunreg.
  unfold display_event_handler, emote_set_qrcode_data.
  auto 12 with frame.
Qed.

Lemma run_handlers_preserves_data (e : env) (rs : list registration)
      (base : esp_event_base_t) (id : Z) (data : option string) :
  preserves s_display_data (run_handlers e rs base id data).
Proof.
  induction rs as [|r rs IH]; cbn [run_handlers]; [apply preserves_ret|].
  apply preserves_bind; [|intros _; exact IH].
  destruct (reg_handler r). apply display_event_handler_preserves_data.
Qed.

Lemma esp_event_deliver_preserves_data (e : env) (base : esp_event_base_t) (id : Z)
      (data : option string) :
  preserves s_display_data (esp_event_deliver e base id data).
Proof. intros w. unfold esp_event_deliver. apply run_handlers_preserves_data. Qed.

(** Every step other than [app_display_init] keeps [s_display_data]. *)
Lemma run_api_preserves_data (e : env) (c : api_call) (w : world) :
  c <> api_init \/ initialized (s_display_data w) = true ->
  s_display_data (snd (run_api e c w)) = s_display_data w.
Proof.
  intros Hc.
  assert (Hstep : forall A (m : M A), preserves s_display_data m ->
            s_display_data (snd (bind m (fun _ => ret tt) w)) = s_display_data w).
  { intros A m Hm. apply (preserves_bind s_display_data m); [exact Hm|].
    intros _. apply preserves_ret. }
  destruct c; cbn [run_api].
  - destruct Hc as [Hc|Hc]; [congruence|].
    unfold bind. now rewrite (init_already_initialized e w Hc).
  - apply Hstep, set_text_preserves. intros. apply emit_preserves_data.
  - apply Hstep, set_emotion_preserves. intros. apply emit_preserves_data.
  - apply Hstep. intros w'. reflexivity.
  - apply Hstep, system_state_changed_preserves; intros; apply emit_preserves_data.
  - apply Hstep. intros w'. now rewrite send_event_unchanged.
  - apply esp_event_deliver_preserves_data.
Qed.

(** X3: once the display is initialized, no sequence of public calls
    and delivered events changes [s_display_data]: the handles and the
    resolution stay those of the bring-up and [initialized] is never
    cleared. *)
Theorem display_data_immutable_after_init (e : env) (cs : list api_call) (w : world) :
  initialized (s_display_data w) = true ->
  s_display_data (snd (run_apis e cs w)) = s_display_data w.
Proof.
  revert w. induction cs as [|c cs IH]; intros w Hinit; [reflexivity|].
  cbn [run_apis]. unfold bind at 1.
  pose proof (run_api_preserves_data e c w (or_intror Hinit)) as Hc.
  destruct (run_api e c w) as [[] w1]. cbn [snd] in Hc.
  rewrite IH; [exact Hc|]. now rewrite Hc.
Qed.

Lemma display_data_immutable_after_init_witness :
  s_display_data
    (snd (run_apis mock_env
            [ api_event APP_NETWORK_EVENT 0 (Some "WIFI:S:net;;"%string);
              api_set_emotion "happy"; api_init;
              api_system_state_changed APP_DEVICE_SYSTEM_STATE_SLEEP NULL ]
            ready_world))
  = s_display_data ready_world.
Proof.
  apply (display_data_immutable_after_init mock_env _ ready_world). reflexivity.
Defined.

Lemma register_preserves_calls (P : call -> bool) (base : esp_event_base_t) (id : Z)
      (f : event_handler) :
  P (call_esp_event_handler_register base id f) = false ->
  preserves (fun w => filter P (trace w)) (esp_event_handler_register base id f).
Proof.
  intros HP w. unfold esp_event_handler_register, bind, emit, set_event_loop.
  cbn [event_loop]. destruct (existsb _ _); cbn [snd trace];
    rewrite filter_app; cbn [filter]; rewrite HP; apply app_nil_r.
Qed.

(** [app_display_init] never pushes a QR payload. *)
Lemma init_preserves_qr_pushes (e : env) :
  preserves (fun w => filter is_qrcode_push (trace w)) (app_display_init e).
Proof.
  pose proof (init_display_preserves_calls is_qrcode_push e engine_call_of_qrcode_push) as Hd.
  pose proof (set_emotion_preserves (fun w => filter is_qrcode_push (trace w)) DISP_EMOTE_IDLE
                (fun h c => emit_preserves_calls _ _ eq_refl)) as He.
  pose proof (register_preserves_calls is_qrcode_push APP_NETWORK_EVENT
                (APP_NETWORK_EVENT_QR_DISPLAY e) display_event_handler_fn eq_refl) as Hr.
  unfold app_display_init, init_emote, set_emote_handle, set_gfx_handle, set_initialized.
  unfold_collaborators.
  auto 40 with frame.
Qed.

Lemma qr_invariant_frame (e : env) (w w' : world) :
  s_display_data w' = s_display_data w ->
  event_loop w' = event_loop w ->
  filter is_qrcode_push (trace w') = filter is_qrcode_push (trace w) ->
  qr_invariant e w -> qr_invariant e w'.
Proof.
  unfold qr_invariant, qr_pushes. intros -> -> ->. auto.
Qed.

Lemma reg_matches_qr_registration_true (e : env) :
  reg_matches APP_NETWORK_EVENT (APP_NETWORK_EVENT_QR_DISPLAY e) (qr_registration e) = true.
Proof. unfold reg_matches. cbn. apply Z.eqb_refl. Qed.

Lemma qr_handling_calls_one_push (e : env) (h : handle) (data : option string) :
  List.length (filter is_qrcode_push (qr_handling_calls e h data)) = 1%nat.
Proof.
  unfold qr_handling_calls. rewrite !filter_app, !List.length_app.
  destruct (is_null h); [|destruct (is_null (emote_get_obj_by_name_ret e "eye_anim"))];
    reflexivity.
Qed.

Lemma reg_matches_qr_registration_inv (e : env) (base : esp_event_base_t) (id : Z) :
  reg_matches base id (qr_registration e) = true ->
  base = APP_NETWORK_EVENT /\ id = APP_NETWORK_EVENT_QR_DISPLAY e.
Proof.
  unfold reg_matches. cbn [qr_registration reg_base reg_id].
  destruct base; cbn [esp_event_base_eqb andb]; try discriminate.
  intros H. apply Z.eqb_eq in H. auto.
Qed.

Lemma qr_invariant_init (e : env) (w : world) :
  qr_invariant e w -> qr_invariant e (snd (app_display_init e w)).
Proof.
  intros K. pose proof (init_preserves_qr_pushes e w) as Hp. cbn beta in Hp.
  destruct (initialized (s_display_data w)) eqn:H0.
  - now rewrite (init_already_initialized e w H0).
  - destruct K as (Ksum & Kreg & Kun). destruct (Kun H0) as [Hl Hz].
    pose proof (init_display_event_loop e w) as Hl1.
    destruct (init_display_outcome e w) as [Hr Hd].
    destruct (init_display e w) as [r w1] eqn:Hid. cbn [fst snd] in *. subst r.
    destruct (Z.eq_dec (first_bring_up_error e) ESP_OK) as [Hok|Hbad].
    + rewrite Hok in Hid. rewrite (init_after_bring_up e w w1 H0 Hid) in *.
      cbn [snd] in *. unfold qr_invariant, qr_pushes in *. rewrite Hp.
      cbn [initialized_world event_loop s_display_data initialized].
      rewrite Hl1, Hl. cbn [existsb app List.length].
      split; [lia|]. split; [|discriminate].
      intros r [<-|[]]. reflexivity.
    + rewrite (init_bring_up_fails e w w1 _ H0 Hid Hbad) in *. cbn [snd] in *.
      apply Z.eqb_neq in Hbad. rewrite Hbad in Hd.
      apply (qr_invariant_frame e w w1 Hd Hl1 Hp).
      unfold qr_invariant. auto.
Qed.

Lemma qr_invariant_deliver (e : env) (base : esp_event_base_t) (id : Z)
      (data : option string) (w : world) :
  qr_invariant e w -> qr_invariant e (snd (esp_event_deliver e base id data w)).
Proof.
  intros K. destruct K as (Ksum & Kreg & Kun).
  unfold esp_event_deliver.
  destruct (event_loop w) as [|r l] eqn:El; [cbn; unfold qr_invariant; rewrite El; auto|].
  assert (l = []) as -> by (destruct l; [reflexivity|cbn in Ksum; lia]).
  assert (r = qr_registration e) as -> by (apply Kreg; now left).
  assert (Hz : qr_pushes w = O) by (cbn in Ksum; lia).
  assert (Hinit : initialized (s_display_data w) = true).
  { destruct (initialized (s_display_data w)); [reflexivity|].
    destruct (Kun eq_refl) as [H _]. discriminate. }
  cbn [filter].
  destruct (reg_matches base id (qr_registration e)) eqn:Hm.
  - apply reg_matches_qr_registration_inv in Hm. destruct Hm as [-> ->].
    cbn [run_handlers run_handler qr_registration reg_handler]. unfold bind.
    rewrite (display_event_handler_qr e w NULL data Hinit). cbn [ret snd].
    unfold qr_invariant, qr_pushes in *. cbn [trace event_loop s_display_data].
    rewrite El. cbn [filter]. rewrite reg_matches_qr_registration_true.
    cbn [negb List.length]. rewrite filter_app, List.length_app, qr_handling_calls_one_push.
    rewrite Hz. split; [lia|]. split; [intros r []|]. rewrite Hinit. discriminate.
  - cbn [run_handlers ret snd]. unfold qr_invariant. rewrite El. auto.
Qed.

Lemma qr_invariant_run_api (e : env) (c : api_call) (w : world) :
  qr_invariant e w -> qr_invariant e (snd (run_api e c w)).
Proof.
  intros K.
  assert (Hstep : forall A (m : M A),
            preserves s_display_data m -> preserves event_loop m ->
            preserves (fun w => filter is_qrcode_push (trace w)) m ->
            qr_invariant e (snd (bind m (fun _ => ret tt) w))).
  { intros A m Hd Hl Hp.
    assert (Hk : forall V (view : world -> V), preserves view m ->
                   view (snd (bind m (fun _ => ret tt) w)) = view w).
    { intros V view Hm. apply (preserves_bind view m); [exact Hm|].
      intros _. apply preserves_ret. }
    apply (qr_invariant_frame e w); [apply (Hk _ _ Hd)|apply (Hk _ _ Hl)| |exact K].
    apply (Hk _ _ Hp). }
  destruct c; cbn [run_api].
  - unfold bind. pose proof (qr_invariant_init e w K) as Hi.
    now destruct (app_display_init e w).
  - apply Hstep; apply set_text_preserves; intros;
      first [apply emit_preserves_data | apply emit_preserves_loop
            | now apply emit_preserves_calls].
  - apply Hstep; apply set_emotion_preserves; intros;
      first [apply emit_preserves_data | apply emit_preserves_loop
            | now apply emit_preserves_calls].
  - apply Hstep; intros w'; reflexivity.
  - apply Hstep; apply system_state_changed_preserves; intros;
      first [apply emit_preserves_data | apply emit_preserves_loop
            | now apply emit_preserves_calls].
  - apply Hstep; intros w'; now rewrite send_event_unchanged.
  - now apply qr_invariant_deliver.
Qed.

Lemma qr_invariant_run_apis (e : env) (cs : list api_call) (w : world) :
  qr_invariant e w -> qr_invariant e (snd (run_apis e cs w)).
Proof.
  revert w. induction cs as [|c cs IH]; intros w K; [exact K|].
  cbn [run_apis]. unfold bind at 1.
  pose proof (qr_invariant_run_api e c w K) as Kc.
  destruct (run_api e c w) as [[] w1]. now apply IH.
Qed.

(** X4: from boot, whatever sequence of public calls and delivered
    events follows, on whatever board, a QR payload is pushed to the
    engine at most once: the handler that pushes it removes its own
    registration, and nothing but the first successful init adds one. *)
Theorem qr_code_pushed_at_most_once (e : env) (cs : list api_call) :
  (qr_pushes (snd (run_apis e cs boot_world)) <= 1)%nat.
Proof.
  assert (K0 : qr_invariant e boot_world).
  { unfold qr_invariant. cbn. split; [lia|]. split; [intros r []|auto]. }
  destruct (qr_invariant_run_apis e cs boot_world K0) as [H _]. lia.
Qed.

(* ================================================================== *)
(** * More on emotion matching *)
(* ================================================================== *)

Lemma lower_codes_cons (a : ascii) (s : string) :
  lower_codes (String a s) = tolower (code a) :: lower_codes s.
Proof. reflexivity. Qed.

(** [strncasecmp] sees its first argument only through the lower-cased
    codes of its characters. *)
Lemma strncasecmp_same_lower (n : nat) :
  forall s s' c, lower_codes s = lower_codes s' ->
                 strncasecmp s c n = strncasecmp s' c n.
Proof.
  induction n as [|n IH]; intros s s' c H; [reflexivity|].
  destruct s as [|a s]; destruct s' as [|a' s'];
    try discriminate; [reflexivity|].
  rewrite !lower_codes_cons in H. injection H as Ha Hs.
  cbn [strncasecmp deref next]. rewrite Ha.
  destruct (negb (tolower (code a') - tolower (code (deref c)) =? 0)
            || (tolower (code (deref c)) =? 0)); [reflexivity|].
  now apply IH.
Qed.

Lemma emotion_matches_same_lower (s s' c : string) :
  lower_codes s = lower_codes s' -> emotion_matches s c = emotion_matches s' c.
Proof.
  intros H. unfold emotion_matches. now rewrite (strncasecmp_same_lower _ s s' c H).
Qed.

Lemma find_matches_same_lower (s s' : string) (cands : list string) :
  lower_codes s = lower_codes s' ->
  find (emotion_matches s) cands = find (emotion_matches s') cands.
Proof.
  intros H. induction cands as [|c rest IH]; cbn [find]; [reflexivity|].
  now rewrite (emotion_matches_same_lower s s' c H), IH.
Qed.

(** X5: the letter case of the input never matters: two inputs that
    agree once lower-cased get the same answer from
    [app_display_set_emotion], the same world (so the same name posted
    to the engine), and the same answer from
    [app_display_is_emotion_valid], initialized or not. *)
Theorem emotion_input_case_insensitive (w : world) (input input' : string) :
  lower_codes input = lower_codes input' ->
  app_display_set_emotion input w = app_display_set_emotion input' w /\
  app_display_is_emotion_valid input w = app_display_is_emotion_valid input' w.
Proof.
  intros H. split.
  - unfold app_display_set_emotion, bind, get_data.
    destruct (negb (initialized (s_display_data w))); [reflexivity|].
    now rewrite !set_emotion_from_find, (find_matches_same_lower _ _ _ H).
  - unfold app_display_is_emotion_valid.
    now rewrite !is_emotion_valid_from_find, (find_matches_same_lower _ _ _ H).
Qed.

Lemma emotion_input_case_insensitive_witness :
  app_display_set_emotion "cOnFuSeD?" ready_world =
  app_display_set_emotion "CONFUSED?" ready_world.
Proof.
  apply (emotion_input_case_insensitive ready_world "cOnFuSeD?" "CONFUSED?"). reflexivity.
Defined.

Lemma find_table_name (c : string) :
  In c valid_emotions -> find (emotion_matches c) valid_emotions = Some c.
Proof.
  intros H. repeat (destruct H as [<-|H]; [reflexivity|]). destruct H.
Qed.

(** X6: every name of the emotion table, written in any mix of upper
    and lower case, is accepted, and what is posted to the engine is the
    table's own spelling of that name, not the caller's. *)
Theorem table_names_any_case (w : world) (c input : string) :
  initialized (s_display_data w) = true ->
  In c valid_emotions ->
  lower_codes input = lower_codes c ->
  app_display_set_emotion input w =
    (ESP_OK, with_calls w [call_emote_set_anim_emoji (emote_handle (s_display_data w)) c]) /\
  fst (app_display_is_emotion_valid input w) = true.
Proof.
  intros Hinit Hin Hl. split.
  - rewrite (set_emotion_initialized w input Hinit).
    now rewrite (find_matches_same_lower _ _ _ Hl), (find_table_name c Hin).
  - unfold app_display_is_emotion_valid, ret. cbn [fst].
    rewrite is_emotion_valid_from_find.
    now rewrite (find_matches_same_lower _ _ _ Hl), (find_table_name c Hin).
Qed.

Lemma table_names_any_case_witness :
  app_display_set_emotion "ShOcKeD" ready_world =
  (ESP_OK, with_calls ready_world
             [call_emote_set_anim_emoji (emote_handle (s_display_data ready_world))
                                        "shocked"]).
Proof.
  refine (proj1 (table_names_any_case ready_world "shocked" "ShOcKeD" _ _ _)).
  - reflexivity.
  - cbn. tauto.
  - reflexivity.
Defined.

Lemma lower_codes_substring (n : nat) :
  forall s, lower_codes (substring 0 n s) = firstn n (lower_codes s).
Proof.
  induction n as [|n IH]; intros [|a s]; try reflexivity.
  cbn [substring]. rewrite !lower_codes_cons. cbn [firstn]. now rewrite IH.
Qed.

Lemma lower_codes_length (s : string) : List.length (lower_codes s) = String.length s.
Proof.
  induction s as [|a s IH]; [reflexivity|].
  rewrite lower_codes_cons. cbn. now rewrite IH.
Qed.

Lemma lower_codes_append (s t : string) :
  lower_codes (s ++ t) = (lower_codes s ++ lower_codes t)%list.
Proof.
  induction s as [|a s IH]; [reflexivity|].
  cbn [append]. rewrite !lower_codes_cons. cbn [app]. now rewrite IH.
Qed.

(** The matching rule on lists of lower-cased codes. *)
Lemma begins_with_firstn (input cand : string) :
  begins_with_ignoring_case input cand <->
  firstn (String.length cand) (lower_codes input) = lower_codes cand.
Proof.
  unfold begins_with_ignoring_case. rewrite lower_codes_substring. split.
  - now intros [_ H].
  - intros H. split; [|exact H].
    rewrite <- (lower_codes_length cand), <- H, length_firstn, lower_codes_length.
    rewrite <- (lower_codes_length input). lia.
Qed.

Lemma begins_with_append (input rest cand : string) :
  begins_with_ignoring_case input cand ->
  begins_with_ignoring_case (input ++ rest) cand.
Proof.
  intros H. pose proof H as [Hlen _].
  apply begins_with_firstn in H. apply begins_with_firstn.
  rewrite lower_codes_append, firstn_app, H.
  rewrite lower_codes_length.
  replace (String.length cand - String.length input)%nat with O by lia.
  cbn [firstn]. apply app_nil_r.
Qed.

(** An input that begins with two names makes the shorter name a
    beginning of the longer one. *)
Lemma begins_with_both (input c c' : string) :
  begins_with_ignoring_case input c ->
  begins_with_ignoring_case input c' ->
  (String.length c <= String.length c')%nat ->
  begins_with_ignoring_case c' c.
Proof.
  intros H H' Hle.
  apply begins_with_firstn in H. apply begins_with_firstn in H'.
  apply begins_with_firstn.
  rewrite <- H', firstn_firstn. now rewrite Nat.min_l by exact Hle.
Qed.

(** No name of the table begins with another name of the table. *)
Lemma table_prefix_free (c c' : string) :
  In c valid_emotions -> In c' valid_emotions ->
  begins_with_ignoring_case c' c -> c = c'.
Proof.
  intros Hc Hc' H.
  assert (Hnf : nul_free c = true).
  { now apply (proj1 (Forall_forall _ _) valid_emotions_nul_free). }
  apply (emotion_matches_iff c' c Hnf) in H. revert H.
  repeat (destruct Hc as [<-|Hc];
          [repeat (destruct Hc' as [<-|Hc']; [first [reflexivity|discriminate]|]);
           destruct Hc'|]).
  destruct Hc.
Qed.

(** X7: an input begins with at most one name of the table, so the
    order of the table never decides the outcome; and whatever follows
    an accepted input is ignored: extending it by any text posts the
    same name again. *)
Theorem emotion_match_unique_and_extends (w : world) (input rest c : string) :
  initialized (s_display_data w) = true ->
  In c valid_emotions ->
  begins_with_ignoring_case input c ->
  (forall c', In c' valid_emotions -> begins_with_ignoring_case input c' -> c' = c) /\
  app_display_set_emotion input w =
    (ESP_OK, with_calls w [call_emote_set_anim_emoji (emote_handle (s_display_data w)) c]) /\
  app_display_set_emotion (input ++ rest) w = app_display_set_emotion input w.
Proof.
  intros Hinit Hin Hb.
  assert (Huniq : forall i c1 c2, In c1 valid_emotions -> In c2 valid_emotions ->
            begins_with_ignoring_case i c1 -> begins_with_ignoring_case i c2 -> c1 = c2).
  { intros i c1 c2 H1 H2 B1 B2.
    destruct (Nat.le_ge_cases (String.length c1) (String.length c2)) as [Hle|Hge].
    - apply (table_prefix_free c1 c2 H1 H2). exact (begins_with_both i c1 c2 B1 B2 Hle).
    - symmetry. apply (table_prefix_free c2 c1 H2 H1).
      exact (begins_with_both i c2 c1 B2 B1 Hge). }
  assert (Hset : forall i, begins_with_ignoring_case i c ->
            app_display_set_emotion i w =
            (ESP_OK, with_calls w
                       [call_emote_set_anim_emoji (emote_handle (s_display_data w)) c])).
  { intros i Hi. rewrite (set_emotion_initialized w i Hinit).
    pose proof (find_first_match i valid_emotions valid_emotions_nul_free) as Hf.
    destruct (find (emotion_matches i) valid_emotions) as [c0|].
    - destruct Hf as (b & a & E & Hb0 & _).
      assert (Hin0 : In c0 valid_emotions).
      { rewrite E. apply in_or_app. right. now left. }
      now rewrite (Huniq i c0 c Hin0 Hin Hb0 Hi).
    - now destruct (Hf c Hin). }
  split; [intros c' Hc' Hb'; now apply (Huniq input c' c)|].
  split; [now apply Hset|].
  rewrite (Hset input Hb). apply Hset. now apply begins_with_append.
Qed.

Lemma emotion_match_unique_and_extends_witness :
  app_display_set_emotion ("sad" ++ "xyz") ready_world =
  app_display_set_emotion "sad" ready_world.
Proof.
  refine (proj2 (proj2 (emotion_match_unique_and_extends ready_world "sad" "xyz" "sad" _ _ _))).
  - reflexivity.
  - cbn. tauto.
  - split; [cbn; lia|reflexivity].
Defined.

(* ================================================================== *)
(** * Backlight and engine start-up *)
(* ================================================================== *)

Lemma int32_small (z : Z) : - 2147483648 <= z < 2147483648 -> int32 z = z.
Proof.
  intros H. unfold int32. change (2 ^ 31) with 2147483648.
  change (2 ^ 32) with 4294967296. rewrite Z.mod_small; lia.
Qed.

(** X8: [set_lcd_backlight] never returns [false]: it is declared
    [bool], and a failing step leaves it through [ESP_RETURN_ON_ERROR]
    with a non-zero error code, which reads as [true] like success. *)
Theorem set_lcd_backlight_never_false (e : env) (b : Z) (w : world) :
  fst (set_lcd_backlight e b w) = true.
Proof.
  unfold set_lcd_backlight, ESP_RETURN_ON_ERROR. unfold_collaborators.
  unfold bind, emit, ret. case_tests; reflexivity.
Qed.

(** X9: when the three backlight lookups succeed and the LEDC duty
    resolution is at most 24 bits, a brightness of 100 percent, the one
    [init_display] asks for, programs the full-scale duty
    [2^resolution - 1], and the duty is latched only if setting it
    succeeded. *)
Theorem set_lcd_backlight_full_scale (e : env) (w : world) :
  esp_board_device_get_handle_ret e "lcd_brightness" = ESP_OK ->
  esp_board_device_get_config_ret e "lcd_brightness" = ESP_OK ->
  esp_board_periph_get_config_ret e = ESP_OK ->
  0 <= ledc_duty_resolution e <= 24 ->
  snd (set_lcd_backlight e 100 w) =
  with_calls w
    ([ call_esp_board_device_get_handle "lcd_brightness";
       call_esp_board_device_get_config "lcd_brightness";
       call_esp_board_periph_get_config;
       call_ledc_set_duty (2 ^ ledc_duty_resolution e - 1) ]
     ++ (if ledc_set_duty_ret e =? ESP_OK then [call_ledc_update_duty] else [])).
Proof.
  intros H1 H2 H3 Hres.
  assert (Hduty :
    (Z.quot (int32 (100 * int32 (int32 (Z.shiftl 1 (ledc_duty_resolution e)) - 1))) 100)
      mod 2 ^ 32
    = 2 ^ ledc_duty_resolution e - 1).
  { assert (0 < 2 ^ ledc_duty_resolution e) by (apply Z.pow_pos_nonneg; lia).
    assert (2 ^ ledc_duty_resolution e <= 2 ^ 24) by (apply Z.pow_le_mono_r; lia).
    assert (E24 : 2 ^ 24 = 16777216) by reflexivity.
    rewrite Z.shiftl_1_l.
    rewrite (int32_small (2 ^ ledc_duty_resolution e)) by lia.
    rewrite (int32_small (2 ^ ledc_duty_resolution e - 1)) by lia.
    rewrite (int32_small (100 * (2 ^ ledc_duty_resolution e - 1))) by lia.
    rewrite Z.mul_comm, Z.quot_mul by lia.
    apply Z.mod_small. change (2 ^ 32) with 4294967296. lia. }
  unfold set_lcd_backlight, ESP_RETURN_ON_ERROR. unfold_collaborators.
  unfold bind, emit, ret. rewrite H1, H2, H3, Hduty. cbn [Z.eqb ESP_OK].
  destruct (ledc_set_duty_ret e =? ESP_OK);
    [destruct (ledc_update_duty_ret e =? ESP_OK)|]; trace_norm; reflexivity.
Qed.

Lemma set_lcd_backlight_full_scale_witness :
  snd (set_lcd_backlight mock_env 100 boot_world) =
  with_calls boot_world
    ([ call_esp_board_device_get_handle "lcd_brightness";
       call_esp_board_device_get_config "lcd_brightness";
       call_esp_board_periph_get_config;
       call_ledc_set_duty (2 ^ ledc_duty_resolution mock_env - 1) ]
     ++ (if ledc_set_duty_ret mock_env =? ESP_OK then [call_ledc_update_duty] else [])).
Proof.
  apply (set_lcd_backlight_full_scale mock_env boot_world);
    first [reflexivity | (cbn; lia)].
Defined.

(** X10: [init_emote] hands out a handle only for an engine that was
    created and reports itself initialized, and null otherwise; an
    engine that was created but is not initialized is released by one
    [emote_deinit], and [emote_deinit] is called in no other case. *)
Theorem init_emote_handle_or_released (e : env) (hres vres : Z) (w : world) :
  let h := fst (init_emote e hres vres w) in
  let w' := snd (init_emote e hres vres w) in
  (h = NULL \/ (h = emote_init_ret e /\ is_null h = false /\
                emote_is_initialized_ret e = true)) /\
  s_display_data w' = s_display_data w /\
  exists cs, trace w' = trace w ++ cs /\
             filter is_emote_deinit cs =
             (if negb (is_null (emote_init_ret e)) && negb (emote_is_initialized_ret e)
              then [call_emote_deinit (emote_init_ret e)] else []).
Proof.
  unfold init_emote, bind, emit, ret.
  destruct (is_null (emote_init_ret e)) eqn:Hn;
    [|destruct (emote_is_initialized_ret e) eqn:Hi];
    cbn [fst snd negb andb s_display_data trace].
  - split; [now left|]. split; [reflexivity|]. eexists. split; reflexivity.
  - split; [right; auto|]. split; [reflexivity|].
    eexists. split; [rewrite <- app_assoc|]; reflexivity.
  - split; [now left|]. split; [reflexivity|].
    eexists. split; [rewrite <- !app_assoc|]; reflexivity.
Qed.

(* ================================================================== *)
(** * What is never sent to the engine *)
(* ================================================================== *)

Lemma run_handlers_preserves {V} (view : world -> V) (e : env) (rs : list registration)
      (base : esp_event_base_t) (id : Z) (data : option string) :
  (forall arg, preserves view (display_event_handler e arg base id data)) ->
  preserves view (run_handlers e rs base id data).
Proof.
  intros Hh. induction rs as [|r rs IH]; cbn [run_handlers]; [apply preserves_ret|].
  apply preserves_bind; [|intros _; exact IH].
  destruct (reg_handler r). apply Hh.
Qed.

Lemma unregister_preserves_calls (P : call -> bool) (base : esp_event_base_t) (id : Z)
      (f : event_handler) :
  P (call_esp_event_handler_unregister base id f) = false ->
  preserves (fun w => filter P (trace w)) (esp_event_handler_unregister base id f).
Proof.
  intros HP w. unfold esp_event_handler_unregister, bind, emit, set_event_loop.
  cbn [snd trace]. rewrite filter_app. cbn [filter]. rewrite HP. apply app_nil_r.
Qed.

Lemma set_text_no_empty_speak (e : env) (ty : app_device_text_type_t)
      (text : option string) (arg : handle) :
  preserves (fun w => filter is_empty_speak (trace w)) (app_display_set_text e ty text arg).
Proof.
  unfold app_display_set_text, emote_set_event_msg.
  apply preserves_bind; [apply preserves_get_data|]. intros d.
  destruct (negb (initialized d)); [apply preserves_ret|].
  destruct ty; try apply preserves_ret.
  - destruct text as [t|]; [|apply preserves_ret].
    destruct (0 <? strlen t)%nat eqn:Hlen; [|apply preserves_ret].
    apply preserves_bind; [|intros _; apply preserves_ret].
    apply preserves_bind; [|intros _; apply preserves_ret].
    apply emit_preserves_calls. cbn [is_empty_speak].
    apply Nat.ltb_lt in Hlen. apply Nat.eqb_neq. lia.
  - auto 8 with frame.
Qed.

Lemma set_emotion_no_empty_speak (input : string) :
  preserves (fun w => filter is_empty_speak (trace w)) (app_display_set_emotion input).
Proof. apply set_emotion_preserves. intros. now apply emit_preserves_calls. Qed.

Lemma engine_call_of_empty_speak (c : call) :
  is_engine_call c = false -> is_empty_speak c = false.
Proof. now destruct c. Qed.

Lemma init_no_empty_speak (e : env) :
  preserves (fun w => filter is_empty_speak (trace w)) (app_display_init e).
Proof.
  pose proof (init_display_preserves_calls is_empty_speak e engine_call_of_empty_speak) as Hd.
  pose proof (set_emotion_no_empty_speak DISP_EMOTE_IDLE) as He.
  pose proof (register_preserves_calls is_empty_speak APP_NETWORK_EVENT
                (APP_NETWORK_EVENT_QR_DISPLAY e) display_event_handler_fn eq_refl) as Hr.
  unfold app_display_init, init_emote, set_emote_handle, set_gfx_handle, set_initialized.
  unfold_collaborators.
  auto 40 with frame.
Qed.

Lemma handler_no_empty_speak (e : env) (arg : handle) (base : esp_event_base_t)
      (id : Z) (data : option string) :
  preserves (fun w => filter is_empty_speak (trace w))
            (display_event_handler e arg base id data).
Proof.
  pose proof (set_text_no_empty_speak e) as Htext.
  pose proof set_emotion_no_empty_speak as Hemo.
  pose proof (fun h v =>
    change_emotion_visibility_preserves (fun w => filter is_empty_speak (trace w)) e h v
      (fun _ _ => emit_preserves_calls _ _ eq_refl)
      (fun _ _ => emit_preserves_calls _ _ eq_refl)) as Hvis.
  pose proof (fun b i f =>
    unregister_preserves_calls is_empty_speak b i f eq_refl) as Hunreg.
  unfold display_event_handler, emote_set_qrcode_data.
  auto 12 with frame.
Qed.

Lemma run_api_no_empty_speak (e : env) (c : api_call) :
  preserves (fun w => filter is_empty_speak (trace w)) (run_api e c).
Proof.
  pose proof (init_no_empty_speak e) as Hi.
  pose proof (set_text_no_empty_speak e) as Htext.
  pose proof set_emotion_no_empty_speak as Hemo.
  destruct c; cbn [run_api]; try (apply preserves_bind; [|intros _; apply preserves_ret]);
    auto.
  - intros w. reflexivity.
  - pose proof (Hemo DISP_EMOTE_IDLE). pose proof (Hemo DISP_EMOTE_SLEEPY).
    unfold app_display_system_state_changed, emote_set_event_msg. auto 12 with frame.
  - intros w. now rewrite send_event_unchanged.
  - intros w. unfold esp_event_deliver.
    apply (run_handlers_preserves (fun w => filter is_empty_speak (trace w))).
    intros arg. apply handler_no_empty_speak.
Qed.

(** X11: no public call and no delivered event ever posts a speak
    message without text: over any sequence of steps, from any world,
    the speak messages with null or empty text in the trace are those
    that were there before (none from boot). *)
Theorem never_an_empty_speak_message (e : env) (cs : list api_call) (w : world) :
  filter is_empty_speak (trace (snd (run_apis e cs w))) = filter is_empty_speak (trace w) /\
  filter is_empty_speak (trace (snd (run_apis e cs boot_world))) = [].
Proof.
  assert (H : forall w0, filter is_empty_speak (trace (snd (run_apis e cs w0))) =
                         filter is_empty_speak (trace w0)).
  { induction cs as [|c cs IH]; intros w0; [reflexivity|].
    cbn [run_apis]. unfold bind at 1.
    pose proof (run_api_no_empty_speak e c w0) as Hc. cbn beta in Hc.
    destruct (run_api e c w0) as [[] w1]. cbn [snd] in Hc. now rewrite IH. }
  split; [apply H|]. now rewrite H.
Qed.

(* ================================================================== *)
(** * What a successful init leaves behind *)
(* ================================================================== *)

(** X12: whenever [app_display_init] returns [ESP_OK], one of two
    things happened.  Called on an uninitialized display, it ended by
    posting the idle emotion, so the engine's current emotion is idle,
    and when the engine came up the status text it shows is
    "Initializing...".  Called on an initialized display, it posted
    nothing and left the world, current emotion included, as it was. *)
Theorem init_leaves_idle (e : env) (w : world) :
  fst (app_display_init e w) = ESP_OK ->
  (initialized (s_display_data w) = false ->
   current_emotion (trace (snd (app_display_init e w))) = Some DISP_EMOTE_IDLE /\
   (is_null (engine_handle e) = false ->
    status_text (trace (snd (app_display_init e w))) =
    Some (Some "Initializing..."%string))) /\
  (initialized (s_display_data w) = true ->
   snd (app_display_init e w) = w /\
   current_emotion (trace (snd (app_display_init e w))) = current_emotion (trace w)).
Proof.
  intros Hret. split.
  - intros Hun.
    assert (Hok : bring_up_succeeds e).
    { apply first_bring_up_error_ok_iff.
      now rewrite <- (init_returns_first_error e w Hun). }
    rewrite (init_ok_trace e w Hun Hok).
    unfold engine_setup_calls. split.
    + rewrite !app_assoc. unfold current_emotion. rewrite fold_left_app. reflexivity.
    + intros Hh. unfold status_text, engine_dependent_calls, touch_dependent_calls.
      rewrite Hh. cbn [negb].
      rewrite !fold_left_app.
      destruct (negb (is_null (touch_handle (bring_up_data e (s_display_data w))))
                && negb (is_null (emote_get_gfx_handle e (engine_handle e))));
        reflexivity.
  - intros Hinit. rewrite (init_already_initialized e w Hinit). split; reflexivity.
Qed.

Lemma init_leaves_idle_witness :
  current_emotion (trace (snd (app_display_init mock_env boot_world))) = Some DISP_EMOTE_IDLE.
Proof.
  refine (proj1 (proj1 (init_leaves_idle mock_env boot_world _) _)).
  - vm_compute. reflexivity.
  - reflexivity.
Defined.

(** X13: the public operations do not look at the engine handle: on a
    board whose engine did not come up, init still succeeds and leaves
    a null engine handle, and afterwards system text and every emotion
    of the table are accepted with [ESP_OK] while the engine call is
    made on the null handle. *)
Theorem operations_without_engine (e : env) (w : world) :
  initialized (s_display_data w) = false ->
  bring_up_succeeds e ->
  engine_handle e = NULL ->
  let w' := snd (app_display_init e w) in
  fst (app_display_init e w) = ESP_OK /\
  emote_handle (s_display_data w') = NULL /\
  gfx_handle (s_display_data w') = NULL /\
  (forall text arg,
     app_display_set_text e APP_DEVICE_TEXT_TYPE_SYSTEM text arg w' =
     (ESP_OK, with_calls w' [call_emote_set_event_msg NULL EMOTE_MGR_EVT_SYS text])) /\
  (forall c, In c valid_emotions ->
     app_display_set_emotion c w' =
     (ESP_OK, with_calls w' [call_emote_set_anim_emoji NULL c])).
Proof.
  intros Hun Hok Hnull w'. unfold w'. rewrite (init_ok e w Hun Hok).
  cbn [fst snd]. split; [reflexivity|].
  set (w1 := initialized_world e _).
  assert (Hh : emote_handle (s_display_data w1) = NULL) by exact Hnull.
  assert (Hi : initialized (s_display_data w1) = true) by reflexivity.
  split; [exact Hh|]. split.
  { unfold w1. cbn [initialized_world s_display_data gfx_handle].
    rewrite Hnull. reflexivity. }
  split.
  - intros text arg. unfold app_display_set_text, emote_set_event_msg, bind, get_data.
    rewrite Hi, Hh. reflexivity.
  - intros c Hc. rewrite (set_emotion_initialized w1 c Hi), (find_table_name c Hc), Hh.
    reflexivity.
Qed.

Lemma operations_without_engine_witness :
  fst (app_display_init no_engine_env boot_world) = ESP_OK.
Proof.
  refine (proj1 (operations_without_engine no_engine_env boot_world _ _ _)).
  - reflexivity.
  - repeat split.
  - reflexivity.
Defined.

(* ================================================================== *)
(** * The console front end *)
(* ================================================================== *)

Lemma is_null_false_iff (h : handle) : is_null h = false <-> h <> NULL.
Proof. unfold is_null. apply Z.eqb_neq. Qed.

(** X14: before the console REPL exists, registering a command or the
    default commands returns [ESP_ERR_INVALID_STATE] and calls nothing. *)
Theorem console_register_before_init (e : Console.env) (w : Console.world) :
  Console.g_repl w = NULL ->
  Console.agent_console_register_default_commands w = Some (ESP_ERR_INVALID_STATE, w) /\
  (forall cmd,
     Console.agent_console_register_command e cmd w = Some (ESP_ERR_INVALID_STATE, w)).
Proof.
  intros H. unfold Console.agent_console_register_default_commands,
    Console.agent_console_register_command, Console.bind, Console.get_repl.
  rewrite H. split; reflexivity.
Qed.

Lemma console_register_before_init_witness :
  Console.agent_console_register_command Console.mock_env 7 Console.boot_world =
  Some (ESP_ERR_INVALID_STATE, Console.boot_world).
Proof.
  apply (console_register_before_init Console.mock_env Console.boot_world). reflexivity.
Defined.

Ltac console_unfold :=
  unfold Console.agent_console_init, Console.agent_console_register_default_commands,
    Console.agent_console_register_command, Console.console_reconfigure_peripheral,
    Console.esp_console_new_repl_usb_serial_jtag, Console.ESP_RETURN_ON_ERROR,
    Console.ESP_ERROR_CHECK, Console.bind, Console.emit, Console.ret,
    Console.get_repl, Console.set_repl.

Ltac console_norm :=
  cbv beta; cbn [Console.g_repl Console.trace]; rewrite <- ?app_assoc; cbn [app].

Ltac console_run :=
  repeat (progress
            (cbv beta iota;
             cbn [negb Z.eqb ESP_OK Console.g_repl Console.trace];
             repeat match goal with
                    | H : ?b = _ |- context [if ?b then _ else _] => rewrite H
                    | H : ?b = _ |- context [if negb ?b then _ else _] => rewrite H
                    end)).

(** [agent_console_init] returns [ESP_OK] exactly when no REPL exists
    yet, the build is the USB-serial-JTAG one and every step succeeds
    and yields a REPL; the world it ends in is then determined. *)
Lemma console_init_ok_iff (e : Console.env) (w w1 : Console.world) :
  Console.agent_console_init e w = Some (ESP_OK, w1) <->
  Console.console_can_start e w /\ w1 = Console.console_ready e w.
Proof.
  unfold Console.console_can_start, Console.console_ready. split.
  - console_unfold.
    destruct (is_null (Console.g_repl w)) eqn:Hn; cbn [negb]; [|discriminate].
    apply Z.eqb_eq in Hn.
    destruct (Console.config e); cbn [Z.eqb ESP_OK].
    + destruct (Console.esp_console_new_repl_ret e =? ESP_OK) eqn:H1;
        [|cbv beta iota; rewrite H1; cbv beta iota;
          intros H; injection H as H _; apply Z.eqb_neq in H1; congruence].
      apply Z.eqb_eq in H1.
      cbn [Z.eqb ESP_OK].
      destruct (Console.usb_serial_jtag_driver_uninstall_ret e =? ESP_OK) eqn:H2;
        [apply Z.eqb_eq in H2|discriminate].
      destruct (Console.usb_serial_jtag_driver_install_ret e =? ESP_OK) eqn:H3;
        [apply Z.eqb_eq in H3|discriminate].
      console_norm.
      destruct (is_null (Console.esp_console_new_repl_handle e)) eqn:H4;
        [discriminate|apply is_null_false_iff in H4].
      cbn [Z.eqb ESP_OK]. console_norm. intros H. injection H as <-. auto 10.
    + console_norm. rewrite Hn. change (is_null NULL) with true. discriminate.
  - intros [(Hn & Hc & H1 & H2 & H3 & H4) ->]. console_unfold.
    rewrite Hn, Hc, H1, H2, H3. change (is_null NULL) with true.
    cbn [negb Z.eqb ESP_OK]. console_norm.
    apply is_null_false_iff in H4. rewrite H4. cbn [Z.eqb ESP_OK]. console_norm.
    reflexivity.
Qed.

(** X15: after [agent_console_init] has returned [ESP_OK] the REPL
    exists; a second call is refused with [ESP_ERR_INVALID_STATE] and
    does nothing (no second REPL, no second task), and a command
    registration is forwarded to the console with its result returned. *)
Theorem console_init_twice (e : Console.env) (w w1 : Console.world) :
  Console.agent_console_init e w = Some (ESP_OK, w1) ->
  Console.g_repl w1 <> NULL /\
  Console.agent_console_init e w1 = Some (ESP_ERR_INVALID_STATE, w1) /\
  (forall cmd,
     Console.agent_console_register_command e cmd w1 =
     Some (Console.esp_console_cmd_register_ret e cmd,
           {| Console.g_repl := Console.g_repl w1;
              Console.trace := Console.trace w1 ++ [Console.call_esp_console_cmd_register cmd] |})).
Proof.
  intros H. apply console_init_ok_iff in H.
  destruct H as [(_ & _ & _ & _ & _ & Hh) ->].
  assert (Hn : is_null (Console.g_repl (Console.console_ready e w)) = false).
  { apply is_null_false_iff. exact Hh. }
  split; [exact Hh|]. split.
  - unfold Console.agent_console_init, Console.bind at 1, Console.get_repl.
    now rewrite Hn.
  - intros cmd. unfold Console.agent_console_register_command, Console.bind at 1,
      Console.get_repl. rewrite Hn. reflexivity.
Qed.

Lemma console_init_twice_witness :
  Console.agent_console_init Console.mock_env
    (Console.console_ready Console.mock_env Console.boot_world) =
  Some (ESP_ERR_INVALID_STATE, Console.console_ready Console.mock_env Console.boot_world).
Proof.
  refine (proj1 (proj2 (console_init_twice Console.mock_env Console.boot_world _ _))).
  reflexivity.
Defined.

(** X16: every outcome of [agent_console_init] when no REPL exists yet.
    In the USB-serial-JTAG build: a failing REPL creation is returned
    after that one call and leaves no REPL; once the REPL is created, a
    failing driver uninstall or install aborts the firmware; otherwise
    the REPL is created first, then the peripheral is reconfigured, then
    the console task is created, then the commands are registered.  In
    a build without that console no REPL is ever created, yet the
    console task is still created before the call fails with
    [ESP_ERR_INVALID_STATE]. *)
Theorem console_init_outcomes (e : Console.env) (w : Console.world) :
  Console.g_repl w = NULL ->
  (Console.config e = Console.CONFIG_ESP_CONSOLE_USB_SERIAL_JTAG ->
   (Console.esp_console_new_repl_ret e <> ESP_OK ->
    Console.agent_console_init e w =
    Some (Console.esp_console_new_repl_ret e,
          {| Console.g_repl := NULL;
             Console.trace := Console.trace w ++
               [Console.call_esp_console_new_repl_usb_serial_jtag 3072] |})) /\
   (Console.esp_console_new_repl_ret e = ESP_OK ->
    (Console.agent_console_init e w = None <->
     Console.usb_serial_jtag_driver_uninstall_ret e <> ESP_OK \/
     Console.usb_serial_jtag_driver_install_ret e <> ESP_OK)) /\
   (Console.console_can_start e w ->
    Console.agent_console_init e w = Some (ESP_OK, Console.console_ready e w))) /\
  (Console.config e = Console.CONFIG_ESP_CONSOLE_OTHER ->
   Console.agent_console_init e w =
   Some (ESP_ERR_INVALID_STATE,
         {| Console.g_repl := NULL;
            Console.trace := Console.trace w ++
              [ Console.call_fflush_stdout; Console.call_fsync_stdout;
                Console.call_xTaskCreate_start_console_task 4096 1 ] |})).
Proof.
  intros Hn.
  assert (Hn' : is_null (Console.g_repl w) = true) by (rewrite Hn; reflexivity).
  split.
  - intros Hc. split; [|split].
    + intros H1. apply Z.eqb_neq in H1. console_unfold. rewrite Hc.
      console_run. now rewrite Hn.
    + intros H1. apply Z.eqb_eq in H1. console_unfold. rewrite Hc. console_run.
      destruct (Console.usb_serial_jtag_driver_uninstall_ret e =? ESP_OK) eqn:H2;
        [apply Z.eqb_eq in H2|apply Z.eqb_neq in H2; split; auto].
      console_run.
      destruct (Console.usb_serial_jtag_driver_install_ret e =? ESP_OK) eqn:H3;
        [apply Z.eqb_eq in H3|apply Z.eqb_neq in H3; split; auto].
      console_run.
      destruct (is_null (Console.esp_console_new_repl_handle e)); console_run;
        (split; [discriminate|intros [H|H]; congruence]).
    + intros Hs. apply console_init_ok_iff. auto.
  - intros Hc. console_unfold. rewrite Hc. console_run.
    change (ESP_ERR_INVALID_STATE =? ESP_OK) with false. console_norm.
    now rewrite Hn.
Qed.

Lemma console_init_outcomes_witness :
  Console.agent_console_init Console.mock_env Console.boot_world =
  Some (ESP_OK, Console.console_ready Console.mock_env Console.boot_world).
Proof.
  refine (proj2 (proj2 (proj1 (console_init_outcomes Console.mock_env Console.boot_world _)
                          _)) _).
  - reflexivity.
  - reflexivity.
  - repeat split. discriminate.
Defined.

(* ================================================================== *)
(** * Events after init *)
(* ================================================================== *)






